(** * The signup dashboard server: row aggregation and its time-based cache

    A shallow embedding of [server.js]: the JavaScript primitives the
    server relies on ([JS]), the plain object used as the per-country
    counter ([Obj]), and the server itself ([Server]): the lazily cached
    sheet title, the row fetch, the aggregation loop of [buildSummary], the
    sixty second cache and the [/api/summary] handler.

    Modelling choices, all local to this file:
    - a JavaScript string is a [string] of ASCII text; [trim] strips the
      ASCII members of the WhiteSpace and LineTerminator classes and the
      case mappings act on the ASCII letters, every other byte is kept;
    - a cell is a JSON scalar ([JS.value]); numbers are counted in [Z] and
      converted to binary64 only where the source divides;
    - module level [let]/[const] bindings become fields of [Server.State];
      what the process sees from outside during one request (the clock, the
      replies of the spreadsheet service) is a [Server.World];
    - an [async] function runs to completion: interleaving of overlapping
      requests is not modelled. *)

From Stdlib Require Import ZArith List String Ascii Bool Lia.
From Stdlib Require Import Permutation Sorted DecimalString Floats Uint63.
Import ListNotations.

Local Open Scope Z_scope.
Local Open Scope string_scope.

(* ================================================================== *)
(** ** JavaScript primitives *)
(* ================================================================== *)

Module JS.

(** The ASCII code points of WhiteSpace and LineTerminator:
    TAB, LF, VT, FF, CR and SP. *)
Definition isWhiteSpace (c : ascii) : bool :=
  let n := N_of_ascii c in
  (((9 <=? n) && (n <=? 13)) || (n =? 32))%N.

Fixpoint trimStart (s : string) : string :=
  match s with
  | EmptyString => EmptyString
  | String c s' => if isWhiteSpace c then trimStart s' else s
  end.

Fixpoint trimEnd (s : string) : string :=
  match s with
  | EmptyString => EmptyString
  | String c s' =>
      match trimEnd s' with
      | EmptyString => if isWhiteSpace c then EmptyString else String c EmptyString
      | t => String c t
      end
  end.

(** [String.prototype.trim] *)
Definition trim (s : string) : string := trimEnd (trimStart s).

Definition lowerChar (c : ascii) : ascii :=
  let n := N_of_ascii c in
  if ((65 <=? n) && (n <=? 90))%N then ascii_of_N (n + 32) else c.

Definition upperChar (c : ascii) : ascii :=
  let n := N_of_ascii c in
  if ((97 <=? n) && (n <=? 122))%N then ascii_of_N (n - 32) else c.

Fixpoint mapChars (f : ascii -> ascii) (s : string) : string :=
  match s with
  | EmptyString => EmptyString
  | String c s' => String (f c) (mapChars f s')
  end.

(** [String.prototype.toLowerCase] and [toUpperCase] *)
Definition toLowerCase : string -> string := mapChars lowerChar.
Definition toUpperCase : string -> string := mapChars upperChar.

(** The values a cell of the fetched range can hold, and the values the
    expressions [x || y] over cells evaluate to.  A number is an integer
    that [String] prints in full decimal form (magnitude below [10^21]). *)
Inductive value : Type :=
| VUndefined
| VNull
| VBool (b : bool)
| VNum (n : Z)
| VStr (s : string).

(** ToBoolean *)
Definition truthy (v : value) : bool :=
  match v with
  | VUndefined | VNull => false
  | VBool b => b
  | VNum n => negb (n =? 0)%Z
  | VStr s => negb (s =? "")
  end.

(** [a || b] *)
Definition or (a b : value) : value := if truthy a then a else b.

(** [String(v)] *)
Definition toString (v : value) : string :=
  match v with
  | VUndefined => "undefined"
  | VNull => "null"
  | VBool true => "true"
  | VBool false => "false"
  | VNum n => NilZero.string_of_int (Z.to_int n)
  | VStr s => s
  end.

(** ToNumber on a counter, as a binary64; exact below [2^53]. *)
Definition toNumber (n : Z) : float := PrimFloat.of_uint63 (Uint63.of_Z n).

(** [Array.prototype.indexOf] with strict equality on strings; -1 when
    no element matches. *)
Fixpoint indexOfFrom (xs : list string) (x : string) (i : Z) : Z :=
  match xs with
  | [] => -1
  | y :: ys => if (y =? x)%string then i else indexOfFrom ys x (i + 1)
  end.

Definition indexOf (xs : list string) (x : string) : Z := indexOfFrom xs x 0.

(** [arr[i]]: [undefined] outside the array. *)
Definition at_ (arr : list value) (i : Z) : value :=
  if (i <? 0)%Z then VUndefined else nth (Z.to_nat i) arr VUndefined.

End JS.

(* ================================================================== *)
(** ** A plain object used as a string-keyed counter *)
(* ================================================================== *)

Module Obj.

(** Own properties in creation order.  Every key written by the server
    is the result of [toUpperCase], so it never names a property
    inherited from [Object.prototype] (see [upper_key_not_inherited]);
    lookups therefore only ever see own properties. *)
Definition t : Type := list (string * Z).

Definition empty : t := [].

(** [o[k]]: [None] stands for [undefined]. *)
Fixpoint get (o : t) (k : string) : option Z :=
  match o with
  | [] => None
  | (k', v) :: o' => if k' =? k then Some v else get o' k
  end.

(** [o[k] = v]: an existing property keeps its place, a new one is
    created last. *)
Fixpoint set (o : t) (k : string) (v : Z) : t :=
  match o with
  | [] => [(k, v)]
  | (k', v') :: o' => if k' =? k then (k', v) :: o' else (k', v') :: set o' k v
  end.

Definition isDigit (c : ascii) : bool :=
  let n := N_of_ascii c in ((48 <=? n) && (n <=? 57))%N.

Fixpoint digitsValue (s : string) (acc : N) : option N :=
  match s with
  | EmptyString => Some acc
  | String c s' =>
      if isDigit c then digitsValue s' (10 * acc + (N_of_ascii c - 48))%N
      else None
  end.

(** An array index is a canonical numeric string below [2^32 - 1]. *)
Definition arrayIndex (k : string) : option N :=
  match k with
  | EmptyString => None
  | String c rest =>
      if (N_of_ascii c =? 48)%N && negb (rest =? "") then None
      else match digitsValue k 0 with
           | Some n => if (n <? 4294967295)%N then Some n else None
           | None => None
           end
  end.

Fixpoint insertIndexed (x : N * (string * Z)) (l : list (N * (string * Z)))
  : list (N * (string * Z)) :=
  match l with
  | [] => [x]
  | y :: l' => if (fst x <=? fst y)%N then x :: l else y :: insertIndexed x l'
  end.

Fixpoint indexedKeys (o : t) : list (N * (string * Z)) :=
  match o with
  | [] => []
  | (k, v) :: o' =>
      match arrayIndex k with
      | Some n => insertIndexed (n, (k, v)) (indexedKeys o')
      | None => indexedKeys o'
      end
  end.

Fixpoint namedKeys (o : t) : t :=
  match o with
  | [] => []
  | (k, v) :: o' =>
      match arrayIndex k with
      | Some _ => namedKeys o'
      | None => (k, v) :: namedKeys o'
      end
  end.

(** [Object.entries(o)]: array-index keys in ascending numeric order,
    then the other keys in creation order. *)
Definition entries (o : t) : list (string * Z) :=
  map snd (indexedKeys o) ++ namedKeys o.

(** The property names every object inherits from [Object.prototype]. *)
Definition inheritedKeys : list string :=
  [ "constructor"; "hasOwnProperty"; "isPrototypeOf"; "propertyIsEnumerable";
    "toLocaleString"; "toString"; "valueOf"; "__proto__";
    "__defineGetter__"; "__defineSetter__"; "__lookupGetter__";
    "__lookupSetter__" ].

End Obj.

(* ================================================================== *)
(** ** The server *)
(* ================================================================== *)

Module Server.
Import JS.

(** A row of the fetched range. *)
Definition Row : Type := list value.

Record Entry : Type := mkEntry { code : string; count : Z }.

(** The summary served by [/api/summary].  [updatedAt] holds the time
    value in milliseconds that [toISOString] renders. *)
Record Summary : Type := mkSummary {
  total : Z;
  marketingYes : Z;
  marketingRate : float;
  countries : list Entry;
  unknownCount : Z;
  topCountry : option Entry;
  updatedAt : Z
}.

Record Cache : Type := mkCache { data : option Summary; fetchedAt : Z }.

Definition CACHE_TTL_MS : Z := 60 * 1000.

Definition truthyValues : list string := ["true"; "1"; "yes"; "si"].

(** [Set.prototype.has] on a set of strings. *)
Definition has (set : list string) (x : string) : bool :=
  existsb (fun y => (y =? x)%string) set.

Definition isTruthy (v : value) : bool :=
  has truthyValues (toLowerCase (trim (toString (or v (VStr ""))))).

Definition normalizeHeader (header : value) : string :=
  toLowerCase (trim (toString (or header (VStr "")))).

(** [!String(cell || '').trim()] *)
Definition isBlank (cell : value) : bool :=
  negb (truthy (VStr (trim (toString (or cell (VStr "")))))).

Definition isRowEmpty (row : Row) : bool := forallb isBlank row.

(** *** Aggregation: the body of [buildSummary] after the fetch *)

Definition getValue (headers : list string) (row : Row) (name : string) : value :=
  let idx := indexOf headers name in
  if (idx =? -1)%Z then VStr "" else or (at_ row idx) (VStr "").

(** The four accumulators of the loop. *)
Record Acc : Type := mkAcc {
  acc_total : Z;
  acc_marketingYes : Z;
  acc_unknownCount : Z;
  acc_countryCounts : Obj.t
}.

Definition acc0 : Acc := mkAcc 0 0 0 Obj.empty.

(** [String(countryRaw || 'unknown').trim().toUpperCase()] *)
Definition countryOf (countryRaw : value) : string :=
  toUpperCase (trim (toString (or countryRaw (VStr "unknown")))).

(** One iteration of [for (const row of rows.slice(1))]. *)
Definition loopBody (headers : list string) (a : Acc) (row : Row) : Acc :=
  if (Z.of_nat (List.length row) =? 0)%Z || isRowEmpty row then a
  else
    let email := getValue headers row "email" in
    let timestamp := getValue headers row "timestamp" in
    if isBlank email && isBlank timestamp then a
    else
      let total := acc_total a + 1 in
      let marketing := getValue headers row "acepta_marketing" in
      let marketingYes :=
        if isTruthy marketing then acc_marketingYes a + 1 else acc_marketingYes a in
      let countryRaw := getValue headers row "ip_country" in
      let country := countryOf countryRaw in
      if negb (truthy (VStr country)) || (country =? "UNKNOWN")%string then
        mkAcc total marketingYes (acc_unknownCount a + 1) (acc_countryCounts a)
      else
        let old := match Obj.get (acc_countryCounts a) country with
                   | Some n => if (n =? 0)%Z then 0 else n
                   | None => 0
                   end in
        mkAcc total marketingYes (acc_unknownCount a)
              (Obj.set (acc_countryCounts a) country (old + 1)).

Definition runLoop (headers : list string) (rows : list Row) : Acc :=
  fold_left (loopBody headers) rows acc0.

(** [countries.sort((a, b) => b.count - a.count)]: the sort is stable
    (ECMAScript 2019), so its result is that of a stable insertion
    sort under the same comparator. *)
Definition compareFn (a b : Entry) : Z := count b - count a.

Fixpoint insertSorted (x : Entry) (l : list Entry) : list Entry :=
  match l with
  | [] => [x]
  | y :: l' => if (compareFn x y <=? 0)%Z then x :: l else y :: insertSorted x l'
  end.

Fixpoint sort (l : list Entry) : list Entry :=
  match l with
  | [] => []
  | x :: l' => insertSorted x (sort l')
  end.

(** [([code, count]) => ({ code, count })] *)
Definition entryOf (kv : string * Z) : Entry := mkEntry (fst kv) (snd kv).

Definition countriesOf (countryCounts : Obj.t) : list Entry :=
  sort (map entryOf (Obj.entries countryCounts)).

Definition emptySummary (date : Z) : Summary :=
  mkSummary 0 0 0%float [] 0 None date.

(** Lines 94-152: the summary of a non-empty range, [date] being the
    reading of [new Date()]. *)
Definition summarize (rows : list Row) (date : Z) : Summary :=
  let headerRow := hd [] rows in
  let headers := map normalizeHeader headerRow in
  let a := runLoop headers (tl rows) in
  let countries := countriesOf (acc_countryCounts a) in
  mkSummary
    (acc_total a)
    (acc_marketingYes a)
    (if (acc_total a =? 0)%Z then 0%float
     else PrimFloat.div (toNumber (acc_marketingYes a)) (toNumber (acc_total a)))
    countries
    (acc_unknownCount a)
    (hd_error countries)
    date.

(** What [buildSummary] computes from the rows it fetched. *)
Definition summaryOfRows (rows : list Row) (date : Z) : Summary :=
  if (Z.of_nat (List.length rows) =? 0)%Z then emptySummary date
  else summarize rows date.

(** *** Process state, the outside world, and effects *)

Definition Error : Type := string.

(** Calls that leave the process. *)
Inductive Event : Type :=
| SpreadsheetsGet
| ValuesGet (range : string)
| ConsoleError (message : string) (error : Error).

Record State : Type := mkState {
  cache : Cache;
  cachedSheetTitle : option string;
  trace : list Event
}.

Definition initialState : State := mkState (mkCache None 0) None [].

Inductive Reply (A : Type) : Type :=
| Resolved (a : A)
| Rejected (e : Error).
Arguments Resolved {A} a.
Arguments Rejected {A} e.

(** What one request observes: [Date.now()] on entry, the service's
    reply to the metadata lookup ([sheets?.[0]?.properties?.title], absent
    as [None]), its reply to a read of a range ([data.values], absent as
    [None]) and [new Date()] once the rows are in. *)
Record World : Type := mkWorld {
  dateNow : Z;
  spreadsheetsGet : Reply (option string);
  valuesGet : string -> Reply (option (list Row));
  newDate : Z
}.

(** Computations that read the world, update the state and may throw.
    A throw keeps the state reached so far. *)
Inductive Result (A : Type) : Type :=
| Ok (a : A)
| Throw (e : Error).
Arguments Ok {A} a.
Arguments Throw {A} e.

Definition M (A : Type) : Type := World -> State -> Result A * State.

Definition ret {A} (a : A) : M A := fun _ s => (Ok a, s).

Definition bind {A B} (m : M A) (k : A -> M B) : M B :=
  fun w s =>
    match m w s with
    | (Ok a, s') => k a w s'
    | (Throw e, s') => (Throw e, s')
    end.

Definition tryCatch {A} (m : M A) (handler : Error -> M A) : M A :=
  fun w s =>
    match m w s with
    | (Ok a, s') => (Ok a, s')
    | (Throw e, s') => handler e w s'
    end.

Definition getState : M State := fun _ s => (Ok s, s).
Definition ask : M World := fun w s => (Ok w, s).
Definition emit (e : Event) : M unit :=
  fun _ s => (Ok tt, mkState (cache s) (cachedSheetTitle s) (trace s ++ [e])%list).
Definition setTitle (t : option string) : M unit :=
  fun _ s => (Ok tt, mkState (cache s) t (trace s)).
Definition setCache (c : Cache) : M unit :=
  fun _ s => (Ok tt, mkState c (cachedSheetTitle s) (trace s)).

(** [await p]: the value of a resolved promise, a throw of a rejected one. *)
Definition await {A} (r : Reply A) : M A :=
  fun _ s => match r with
             | Resolved a => (Ok a, s)
             | Rejected e => (Throw e, s)
             end.

Declare Scope js_scope.
Delimit Scope js_scope with js.
Notation "x <- m ;; k" := (bind m (fun x => k))
  (at level 61, m at next level, right associativity) : js_scope.
Notation "m ;; k" := (bind m (fun _ => k))
  (at level 61, right associativity) : js_scope.
Local Open Scope js_scope.

(** Truthiness of a title that is [null] or a string. *)
Definition titleTruthy (t : option string) : bool :=
  match t with
  | Some s => truthy (VStr s)
  | None => false
  end.

(** [x || null] on a title. *)
Definition orNull (t : option string) : option string :=
  if titleTruthy t then t else None.

Definition getSheetTitle : M (option string) :=
  s <- getState ;;
  if titleTruthy (cachedSheetTitle s) then ret (cachedSheetTitle s)
  else
    w <- ask ;;
    emit SpreadsheetsGet ;;
    title <- await (spreadsheetsGet w) ;;
    setTitle (orNull title) ;;
    s' <- getState ;;
    ret (cachedSheetTitle s').

(** [getAuthClient()] and [google.sheets(...)] only build the client
    object; the two awaited calls are the effects. *)
Definition fetchSheetRows : M (list Row) :=
  sheetTitle <- getSheetTitle ;;
  let range := match sheetTitle with
               | Some t => if titleTruthy sheetTitle then t ++ "!A1:Z" else "A1:Z"
               | None => "A1:Z"
               end in
  w <- ask ;;
  emit (ValuesGet range) ;;
  values <- await (valuesGet w range) ;;
  ret (match values with Some rows => rows | None => [] end).

(** [cache.data && now - cache.fetchedAt < CACHE_TTL_MS] *)
Definition isFresh (c : Cache) (now : Z) : bool :=
  match data c with
  | Some _ => (now - fetchedAt c <? CACHE_TTL_MS)%Z
  | None => false
  end.

(** Lines 78-156: fetch, aggregate, store, return. *)
Definition refresh (now : Z) : M Summary :=
  rows <- fetchSheetRows ;;
  w <- ask ;;
  let summary := summaryOfRows rows (newDate w) in
  setCache (mkCache (Some summary) now) ;;
  ret summary.

Definition buildSummary : M Summary :=
  w <- ask ;;
  let now := dateNow w in
  s <- getState ;;
  match data (cache s) with
  | Some cached =>
      if (now - fetchedAt (cache s) <? CACHE_TTL_MS)%Z then ret cached
      else refresh now
  | None => refresh now
  end.

(** What the handler hands to Express: the status code in force when it
    calls [json] (200 unless [status(500)] was called) and the body.  What
    Express then puts on the wire (it answers a fresh conditional request
    with 304 and no body) is outside [server.js] and is not modelled. *)
Inductive Body : Type :=
| SummaryBody (summary : Summary)
| ErrorBody (error : string).

Record Response : Type := mkResponse { status : Z; body : Body }.

(** [app.get('/api/summary', ...)] *)
Definition apiSummary : M Response :=
  tryCatch
    (summary <- buildSummary ;;
     ret (mkResponse 200 (SummaryBody summary)))
    (fun error =>
       emit (ConsoleError "Failed to load sheet data" error) ;;
       ret (mkResponse 500 (ErrorBody "Failed to load sheet data"))).

(** The requests that reached the spreadsheet service for cell values. *)
Definition isValuesGet (e : Event) : bool :=
  match e with ValuesGet _ => true | _ => false end.
Definition isSpreadsheetsGet (e : Event) : bool :=
  match e with SpreadsheetsGet => true | _ => false end.
Definition fetches (s : State) : nat := List.length (filter isValuesGet (trace s)).
Definition lookups (s : State) : nat := List.length (filter isSpreadsheetsGet (trace s)).

End Server.

(* ================================================================== *)
(** ** Vocabulary of the properties *)
(* ================================================================== *)

Module Spec.
Import JS Server.

(** A string made of white space only. *)
Fixpoint allWhite (s : string) : bool :=
  match s with
  | EmptyString => true
  | String c s' => isWhiteSpace c && allWhite s'
  end.

(** [sum(countries[*].count)] *)
Definition sumCounts (l : list Entry) : Z :=
  fold_right (fun e acc => count e + acc) 0 l.

(** A cell is non-blank when its text [String(cell || '')], trimmed, is
    not empty; a falsy cell ([null], [false], [0]) has the empty text. *)
Definition nonBlank (cell : value) : bool :=
  negb (trim (toString (or cell (VStr ""))) =? "")%string.

(** A qualifying record: at least one non-blank cell, and a non-blank
    [email] or [timestamp] field. *)
Definition qualifies (headers : list string) (row : Row) : bool :=
  existsb nonBlank row
  && (nonBlank (getValue headers row "email")
      || nonBlank (getValue headers row "timestamp")).

(** The named bucket of a raw country cell: none when the normalized
    code is empty or the sentinel. *)
Definition bucketOf (countryRaw : value) : option string :=
  let c := countryOf countryRaw in
  if (c =? "")%string || (c =? "UNKNOWN")%string then None else Some c.

(** The named bucket a data row is counted in, if any. *)
Definition rowBucket (headers : list string) (row : Row) : option string :=
  if qualifies headers row then bucketOf (getValue headers row "ip_country")
  else None.

Definition isBucket (c : string) (b : option string) : bool :=
  match b with
  | Some c' => (c' =? c)%string
  | None => false
  end.

(** How many data rows are counted in the named bucket [c]. *)
Definition rowsIn (headers : list string) (rows : list Row) (c : string) : Z :=
  Z.of_nat (List.length (filter (fun r => isBucket c (rowBucket headers r)) rows)).

(** Non-increasing by count. *)
Definition countDescending (l : list Entry) : Prop :=
  Sorted (fun a b => count a >= count b) l.

(** The value of [o[k] || 0]. *)
Definition getOr0 (o : Obj.t) (k : string) : Z :=
  match Obj.get o k with
  | Some n => n
  | None => 0
  end.

Definition sumValues (o : Obj.t) : Z := sumCounts (map entryOf o).

(** What an iteration does to the accumulators of a qualifying row. *)
Definition counted (headers : list string) (a : Acc) (row : Row) : Acc :=
  mkAcc (acc_total a + 1)
        (if isTruthy (getValue headers row "acepta_marketing")
         then acc_marketingYes a + 1 else acc_marketingYes a)
        (match bucketOf (getValue headers row "ip_country") with
         | None => acc_unknownCount a + 1
         | Some _ => acc_unknownCount a
         end)
        (match bucketOf (getValue headers row "ip_country") with
         | None => acc_countryCounts a
         | Some c => Obj.set (acc_countryCounts a) c (getOr0 (acc_countryCounts a) c + 1)
         end).

(** A summary computed from some fetched range. *)
Definition Produced (summary : Summary) : Prop :=
  exists rows date, summary = summaryOfRows rows date.

(** The states the process goes through: it starts with both caches empty
    and serves one request after the other. *)
Inductive Reachable : State -> Prop :=
| reach_start : Reachable initialState
| reach_request w s : Reachable s -> Reachable (snd (apiSummary w s)).

(** The cache entry exists and is younger than the freshness window. *)
Definition freshAt (s : State) (now : Z) : Prop :=
  exists cached, data (cache s) = Some cached /\ now - fetchedAt (cache s) < 60 * 1000.

End Spec.

(* ================================================================== *)
(** ** A worked range *)
(* ================================================================== *)

Module Scenario.
Import JS Server.

Definition header : Row :=
  [VStr "email"; VStr "timestamp"; VStr "acepta_marketing"; VStr "ip_country"].

Definition record (email timestamp marketing country : string) : Row :=
  [VStr email; VStr timestamp; VStr marketing; VStr country].

(** Two signups from Mexico, a blank separator row, a signup without a
    country. *)
Definition rows : list Row :=
  [ header;
    record "a@x.com" "t1" "true" "MX";
    record "b@x.com" "t2" "no" "MX";
    record "" "" "" "";
    record "c@x.com" "t3" "1" "" ].

(** Codes that differ in case and padding, a short row and a row holding
    a number, a boolean and [null]. *)
Definition ragged : list Row :=
  [ [VStr " Email "; VStr "IP_Country"; VStr "acepta_marketing"];
    [VStr "a@x.com"; VStr " us "];
    [VStr "b@x.com"; VStr "US"; VStr " SI "];
    [VStr "c@x.com"; VStr "us"; VBool true; VNull];
    [VNum 7];
    [];
    [VNull; VStr "mx"; VStr "yes"] ].

(** The service answers with a title and the range [rows]. *)
Definition world (now : Z) (range : list Row) : World :=
  mkWorld now (Resolved (Some "Signups")) (fun _ => Resolved (Some range)) (now + 250).

(** The service refuses the read of cell values. *)
Definition failing (now : Z) : World :=
  mkWorld now (Resolved (Some "Signups")) (fun _ => Rejected "quota exceeded") (now + 250).

(** The service reports no sheet. *)
Definition untitled (now : Z) : World :=
  mkWorld now (Resolved None) (fun _ => Resolved (Some rows)) (now + 250).

End Scenario.

(* ================================================================== *)
(** ** The service account client *)
(* ================================================================== *)

Module Auth.

Definition backslash : ascii := ascii_of_N 92.
Definition lineFeed : ascii := ascii_of_N 10.

(** [s.replace(/\\n/g, '\n')]: every backslash followed by [n], scanning
    from the left, becomes one line feed. *)
Fixpoint replaceEscapedNewlines (s : string) : string :=
  match s with
  | EmptyString => EmptyString
  | String c rest =>
      match rest with
      | String c' rest' =>
          if (c =? backslash)%char && (c' =? "n")%char
          then String lineFeed (replaceEscapedNewlines rest')
          else String c (replaceEscapedNewlines rest)
      | EmptyString => String c EmptyString
      end
  end.

(** The arguments of [new google.auth.JWT(email, keyFile, key, scopes)]. *)
Record JWT : Type := mkJWT {
  email : string;
  keyFile : option string;
  key : string;
  scopes : list string
}.

Definition getAuthClient (CLIENT_EMAIL PRIVATE_KEY : string) : JWT :=
  let formattedKey := replaceEscapedNewlines PRIVATE_KEY in
  mkJWT CLIENT_EMAIL None formattedKey
        ["https://www.googleapis.com/auth/spreadsheets.readonly"].

(** A backslash immediately followed by [n] occurs in the string. *)
Fixpoint hasEscapedNewline (s : string) : bool :=
  match s with
  | EmptyString => false
  | String c rest =>
      match rest with
      | String c' _ =>
          ((c =? backslash)%char && (c' =? "n")%char) || hasEscapedNewline rest
      | EmptyString => false
      end
  end.

End Auth.

(* ================================================================== *)
(** ** The dashboard's reading of a summary ([public/app.js]) *)
(* ================================================================== *)

Module Client.
Import Server.

(** [n || 0] on a number. *)
Definition orZero (n : Z) : Z := if (n =? 0)%Z then 0 else n.

(** [summary?.total || 0] and [summary?.unknownCount || 0]; the state
    variable [summary] is [null] until the first response. *)
Definition totalOf (summary : option Summary) : Z :=
  match summary with
  | Some s => orZero (total s)
  | None => 0
  end.

Definition unknownCountOf (summary : option Summary) : Z :=
  match summary with
  | Some s => orZero (unknownCount s)
  | None => 0
  end.

(** The rows of the country list: the first six countries, then the
    unknown count when it is positive. *)
Definition topCountries (summary : option Summary) : list Entry :=
  match summary with
  | None => []
  | Some s =>
      let items := firstn 6 (countries s) in
      if (unknownCountOf summary >? 0)%Z
      then items ++ [mkEntry "UNKNOWN" (unknownCountOf summary)]
      else items
  end.

(** [topCountries.reduce((m, e) => Math.max(m, e.count), 1)] *)
Definition maxCountryCount (summary : option Summary) : Z :=
  fold_left (fun maxValue entry => Z.max maxValue (count entry))
            (topCountries summary) 1.

(** [Math.max(0, target - total)] of a milestone. *)
Definition remaining (summary : option Summary) (target : Z) : Z :=
  Z.max 0 (target - totalOf summary).

End Client.

(* ================================================================== *)
(** ** Vocabulary of the further properties *)
(* ================================================================== *)

Module Runs.
Import JS Server Spec.

(** The handler serving the requests [ws] one after the other. *)
Fixpoint serveAll (ws : list World) (s : State) : list (Result Response) * State :=
  match ws with
  | [] => ([], s)
  | w :: ws' =>
      let (r, s1) := apiSummary w s in
      let (rs, s2) := serveAll ws' s1 in
      (r :: rs, s2)
  end.

(** The four fields the aggregation reads. *)
Definition fieldNames : list string :=
  ["email"; "timestamp"; "acepta_marketing"; "ip_country"].

(** Two rows, each under its own header, read the same in every field. *)
Definition sameFields (headers headers' : list string) (row row' : Row) : Prop :=
  forall name, In name fieldNames ->
    getValue headers row name = getValue headers' row' name.

(** The named buckets of the data rows in order of first appearance. *)
Definition noteBucket (seen : list string) (b : option string) : list string :=
  match b with
  | Some c => if has seen c then seen else (seen ++ [c])%list
  | None => seen
  end.

Definition seenOrder (headers : list string) (rows : list Row) : list string :=
  fold_left noteBucket (map (rowBucket headers) rows) [].

(** The text of a cell: [String(cell || '')]. *)
Definition textOf (cell : value) : string := toString (or cell (VStr "")).

(** A text of ASCII characters only, on which [JS.trim] and the case
    mappings of [JS] are the built-ins. *)
Fixpoint isAscii (s : string) : bool :=
  match s with
  | EmptyString => true
  | String c s' => (N_of_ascii c <? 128)%N && isAscii s'
  end.

(** The body the handler passed to [json]. *)
Definition sentBody (r : Result Response) : option Body :=
  match r with
  | Ok response => Some (body response)
  | Throw _ => None
  end.

End Runs.

(* ================================================================== *)
(** ** Facts about the string primitives *)
(* ================================================================== *)

Section Strings.
Import JS Spec.

Ltac by_cases_on_char c :=
  destruct c as [[] [] [] [] [] [] [] []]; vm_compute; reflexivity.

Lemma isWhiteSpace_upperChar c : isWhiteSpace (upperChar c) = isWhiteSpace c.
Proof. by_cases_on_char c. Qed.

Lemma upperChar_lowerChar c : upperChar (lowerChar c) = upperChar c.
Proof. by_cases_on_char c. Qed.

Lemma upperChar_idem c : upperChar (upperChar c) = upperChar c.
Proof. by_cases_on_char c. Qed.

Lemma toUpperCase_toLowerCase s : toUpperCase (toLowerCase s) = toUpperCase s.
Proof.
  unfold toUpperCase, toLowerCase.
  induction s as [|c s IH]; simpl; [reflexivity|].
  now rewrite IH, upperChar_lowerChar.
Qed.

Lemma toUpperCase_idem s : toUpperCase (toUpperCase s) = toUpperCase s.
Proof.
  unfold toUpperCase.
  induction s as [|c s IH]; simpl; [reflexivity|].
  now rewrite IH, upperChar_idem.
Qed.

Lemma mapChars_empty f s : mapChars f s = "" <-> s = "".
Proof. destruct s; simpl; split; congruence. Qed.

Lemma trimStart_allWhite l : allWhite l = true -> trimStart l = "".
Proof.
  induction l as [|c l IH]; simpl; [reflexivity|].
  intros [Hc Hl]%andb_prop. rewrite Hc. auto.
Qed.

Lemma trimEnd_allWhite r : allWhite r = true -> trimEnd r = "".
Proof.
  induction r as [|c r IH]; simpl; [reflexivity|].
  intros [Hc Hr]%andb_prop. rewrite (IH Hr), Hc. reflexivity.
Qed.

Lemma trimStart_app_white l x : allWhite l = true -> trimStart (l ++ x) = trimStart x.
Proof.
  induction l as [|c l IH]; simpl; [reflexivity|].
  intros [Hc Hl]%andb_prop. rewrite Hc. auto.
Qed.

Lemma trimEnd_app_white x r : allWhite r = true -> trimEnd (x ++ r) = trimEnd x.
Proof.
  intros Hr. induction x as [|c x IH]; simpl.
  - now apply trimEnd_allWhite.
  - now rewrite IH.
Qed.

Lemma trim_app_white_r x r : allWhite r = true -> trim (x ++ r) = trim x.
Proof.
  intros Hr. unfold trim. induction x as [|c x IH]; simpl.
  - now rewrite trimStart_allWhite.
  - destruct (isWhiteSpace c); [exact IH|].
    change (String c (x ++ r)) with (String c x ++ r).
    now apply trimEnd_app_white.
Qed.

(** Surrounding white space does not survive [trim]. *)
Lemma trim_padded l x r :
  allWhite l = true -> allWhite r = true -> trim (l ++ x ++ r) = trim x.
Proof.
  intros Hl Hr. unfold trim. rewrite trimStart_app_white by assumption.
  now apply trim_app_white_r.
Qed.

Section MapChars.
Variable f : ascii -> ascii.
Hypothesis f_white : forall c, isWhiteSpace (f c) = isWhiteSpace c.

Lemma trimStart_mapChars s : trimStart (mapChars f s) = mapChars f (trimStart s).
Proof.
  induction s as [|c s IH]; simpl; [reflexivity|].
  rewrite f_white. now destruct (isWhiteSpace c).
Qed.

Lemma trimEnd_mapChars s : trimEnd (mapChars f s) = mapChars f (trimEnd s).
Proof.
  induction s as [|c s IH]; simpl; [reflexivity|].
  rewrite IH, f_white.
  destruct (trimEnd s); simpl; [now destruct (isWhiteSpace c)|reflexivity].
Qed.

Lemma trim_mapChars s : trim (mapChars f s) = mapChars f (trim s).
Proof. unfold trim. now rewrite trimStart_mapChars, trimEnd_mapChars. Qed.
End MapChars.

(** Strings equal up to letter case have the same trimmed upper case. *)
Lemma toUpperCase_trim_nocase a b :
  toLowerCase a = toLowerCase b -> toUpperCase (trim a) = toUpperCase (trim b).
Proof.
  intros H. unfold toUpperCase.
  rewrite <- !(trim_mapChars upperChar isWhiteSpace_upperChar).
  fold (toUpperCase a) (toUpperCase b).
  now rewrite <- (toUpperCase_toLowerCase a), <- (toUpperCase_toLowerCase b), H.
Qed.

(** No upper-cased key collides with a property of [Object.prototype]. *)
Lemma upper_key_not_inherited s : ~ In (toUpperCase s) Obj.inheritedKeys.
Proof.
  intros Hin.
  assert (Hfix : forall k, In k Obj.inheritedKeys -> toUpperCase k <> k).
  { intros k Hk. repeat (destruct Hk as [<-|Hk]; [vm_compute; discriminate|]).
    destruct Hk. }
  apply (Hfix _ Hin). apply toUpperCase_idem.
Qed.

End Strings.

(* ================================================================== *)
(** ** Facts about the counter object and the sort *)
(* ================================================================== *)

Section Counter.
Import JS Server Spec.

Lemma get_set_same o k v : Obj.get (Obj.set o k v) k = Some v.
Proof.
  induction o as [|[k' v'] o IH]; simpl.
  - now rewrite String.eqb_refl.
  - destruct (k' =? k)%string eqn:E; simpl; rewrite E; auto.
Qed.

Lemma get_set_other o k v k' : k' <> k -> Obj.get (Obj.set o k v) k' = Obj.get o k'.
Proof.
  intros Hne. induction o as [|[k0 v0] o IH]; simpl.
  - destruct (String.eqb_spec k k'); congruence.
  - destruct (String.eqb_spec k0 k) as [->|]; simpl.
    + destruct (String.eqb_spec k k'); congruence.
    + now rewrite IH.
Qed.

Lemma get_None_iff o k : Obj.get o k = None <-> ~ In k (map fst o).
Proof.
  induction o as [|[k0 v0] o IH]; simpl; [tauto|].
  destruct (String.eqb_spec k0 k) as [->|Hne].
  - split; [discriminate|tauto].
  - rewrite IH. tauto.
Qed.

Lemma keys_set o k v :
  map fst (Obj.set o k v) =
  match Obj.get o k with
  | Some _ => map fst o
  | None => (map fst o ++ [k])%list
  end.
Proof.
  induction o as [|[k0 v0] o IH]; simpl; [reflexivity|].
  destruct (k0 =? k)%string; simpl; [reflexivity|].
  rewrite IH. now destruct (Obj.get o k).
Qed.

Lemma NoDup_keys_set o k v : NoDup (map fst o) -> NoDup (map fst (Obj.set o k v)).
Proof.
  intros Hnd. rewrite keys_set.
  destruct (Obj.get o k) eqn:E; [assumption|].
  apply get_None_iff in E.
  apply (Permutation_NoDup (l := k :: map fst o)).
  - apply Permutation_cons_append.
  - now constructor.
Qed.

Lemma sumValues_set o k v :
  sumValues (Obj.set o k v) = sumValues o - getOr0 o k + v.
Proof.
  unfold sumValues, getOr0.
  induction o as [|[k0 v0] o IH]; simpl; [lia|].
  destruct (k0 =? k)%string; simpl; lia.
Qed.

Lemma insertIndexed_perm x l : Permutation (Obj.insertIndexed x l) (x :: l).
Proof.
  induction l as [|y l IH]; simpl; [reflexivity|].
  destruct (fst x <=? fst y)%N; [reflexivity|].
  rewrite IH. apply perm_swap.
Qed.

(** [Object.entries] lists every own property exactly once. *)
Lemma entries_perm o : Permutation (Obj.entries o) o.
Proof.
  unfold Obj.entries.
  induction o as [|[k v] o IH]; simpl; [reflexivity|].
  destruct (Obj.arrayIndex k) as [n|].
  - rewrite (Permutation_map snd (insertIndexed_perm _ _)). simpl.
    now constructor.
  - rewrite <- Permutation_middle. now constructor.
Qed.

Lemma insertSorted_perm x l : Permutation (insertSorted x l) (x :: l).
Proof.
  induction l as [|y l IH]; simpl; [reflexivity|].
  destruct (compareFn x y <=? 0)%Z; [reflexivity|].
  rewrite IH. apply perm_swap.
Qed.

Lemma sort_perm l : Permutation (sort l) l.
Proof.
  induction l as [|x l IH]; simpl; [reflexivity|].
  rewrite insertSorted_perm. now constructor.
Qed.

Lemma countriesOf_perm o : Permutation (countriesOf o) (map entryOf o).
Proof.
  unfold countriesOf. rewrite sort_perm.
  apply Permutation_map, entries_perm.
Qed.

Lemma sumCounts_perm l l' : Permutation l l' -> sumCounts l = sumCounts l'.
Proof. induction 1; simpl; lia. Qed.

Lemma insertSorted_sorted x l :
  countDescending l -> countDescending (insertSorted x l).
Proof.
  unfold countDescending.
  induction l as [|y l IH]; simpl; intros Hs.
  - repeat constructor.
  - destruct (Z.leb_spec (compareFn x y) 0) as [Hle|Hgt]; unfold compareFn in *.
    + constructor; [assumption|]. constructor. lia.
    + apply Sorted_inv in Hs as [Hs Hhd].
      constructor; [auto|].
      destruct l as [|z l]; simpl.
      * constructor. lia.
      * unfold compareFn.
        destruct (Z.leb_spec (count z - count x) 0); constructor;
          [lia | now inversion Hhd].
Qed.

Lemma sort_sorted l : countDescending (sort l).
Proof.
  induction l as [|x l IH]; simpl.
  - constructor.
  - now apply insertSorted_sorted.
Qed.

End Counter.

(* ================================================================== *)
(** ** The aggregation loop *)
(* ================================================================== *)

Section Loop.
Import JS Server Spec.

Variable headers : list string.

Lemma isBlank_nonBlank cell : isBlank cell = negb (nonBlank cell).
Proof. unfold isBlank, nonBlank. simpl. reflexivity. Qed.

Lemma isRowEmpty_nonBlank row : isRowEmpty row = negb (existsb nonBlank row).
Proof.
  unfold isRowEmpty. induction row as [|c row IH]; simpl; [reflexivity|].
  now rewrite IH, isBlank_nonBlank, negb_orb.
Qed.

(** The first guard of the loop: a row of length zero has no non-blank
    cell, so the length test adds nothing to [isRowEmpty]. *)
Lemma skip_blank_row row :
  (Z.of_nat (List.length row) =? 0)%Z || isRowEmpty row = negb (existsb nonBlank row).
Proof.
  rewrite isRowEmpty_nonBlank. destruct row; simpl; [reflexivity|].
  now destruct (_ || _).
Qed.

Lemma loopBody_spec a row :
  loopBody headers a row = if qualifies headers row then counted headers a row else a.
Proof.
  unfold loopBody, qualifies. rewrite skip_blank_row, !isBlank_nonBlank.
  destruct (existsb nonBlank row); simpl; [|reflexivity].
  rewrite <- negb_orb.
  destruct (nonBlank (getValue headers row "email")
            || nonBlank (getValue headers row "timestamp")); simpl; [|reflexivity].
  unfold counted, bucketOf.
  set (c := countryOf (getValue headers row "ip_country")).
  replace (negb (negb (c =? ""))) with (c =? "")%string by now destruct (c =? "")%string.
  destruct ((c =? "") || (c =? "UNKNOWN"))%string; [reflexivity|].
  f_equal. f_equal. unfold getOr0.
  destruct (Obj.get (acc_countryCounts a) c) as [n|]; [|reflexivity].
  destruct (Z.eqb_spec n 0); lia.
Qed.

Lemma runLoop_snoc rows row :
  runLoop headers (rows ++ [row]) = loopBody headers (runLoop headers rows) row.
Proof. unfold runLoop. now rewrite fold_left_app. Qed.

(** Every iteration keeps [total = sum of the named buckets + unknown]. *)
Lemma loopBody_balance a row :
  acc_total a = sumValues (acc_countryCounts a) + acc_unknownCount a ->
  acc_total (loopBody headers a row)
  = sumValues (acc_countryCounts (loopBody headers a row))
    + acc_unknownCount (loopBody headers a row).
Proof.
  intros Hinv. rewrite loopBody_spec.
  destruct (qualifies headers row); [|assumption].
  unfold counted; simpl.
  destruct (bucketOf _) as [c|]; [rewrite sumValues_set|]; lia.
Qed.

Lemma runLoop_balance rows :
  acc_total (runLoop headers rows)
  = sumValues (acc_countryCounts (runLoop headers rows))
    + acc_unknownCount (runLoop headers rows).
Proof.
  induction rows as [|row rows IH] using rev_ind.
  - reflexivity.
  - rewrite runLoop_snoc. now apply loopBody_balance.
Qed.

Lemma runLoop_total rows :
  acc_total (runLoop headers rows)
  = Z.of_nat (List.length (filter (qualifies headers) rows)).
Proof.
  induction rows as [|row rows IH] using rev_ind; [reflexivity|].
  rewrite runLoop_snoc, loopBody_spec, filter_app, length_app. simpl.
  destruct (qualifies headers row); simpl; lia.
Qed.

Lemma runLoop_marketingYes rows :
  acc_marketingYes (runLoop headers rows)
  = Z.of_nat (List.length (filter
      (fun r => qualifies headers r && isTruthy (getValue headers r "acepta_marketing"))
      rows)).
Proof.
  induction rows as [|row rows IH] using rev_ind; [reflexivity|].
  rewrite runLoop_snoc, loopBody_spec, filter_app, length_app. simpl.
  destruct (qualifies headers row); simpl; [|lia].
  destruct (isTruthy _); simpl; lia.
Qed.

Lemma rowsIn_snoc rows row c :
  rowsIn headers (rows ++ [row]) c
  = rowsIn headers rows c + (if isBucket c (rowBucket headers row) then 1 else 0).
Proof.
  unfold rowsIn. rewrite filter_app, length_app. simpl.
  destruct (isBucket c (rowBucket headers row)); simpl; lia.
Qed.

Lemma rowsIn_nonneg rows c : 0 <= rowsIn headers rows c.
Proof. unfold rowsIn. lia. Qed.

(** The counter object holds, for every code, the number of rows counted
    in that bucket, and no property for a code no row was counted in. *)
Lemma runLoop_get rows c :
  Obj.get (acc_countryCounts (runLoop headers rows)) c
  = if (rowsIn headers rows c =? 0)%Z then None else Some (rowsIn headers rows c).
Proof.
  induction rows as [|row rows IH] using rev_ind; [reflexivity|].
  rewrite runLoop_snoc, loopBody_spec, rowsIn_snoc.
  pose proof (rowsIn_nonneg rows c) as Hpos.
  unfold rowBucket.
  destruct (qualifies headers row); simpl;
    [|rewrite Z.add_0_r; exact IH].
  destruct (bucketOf _) as [c'|]; simpl; [|rewrite Z.add_0_r; exact IH].
  destruct (String.eqb_spec c' c) as [->|Hne].
  - rewrite get_set_same. unfold getOr0. rewrite IH.
    set (n := rowsIn headers rows c) in *.
    destruct (Z.eqb_spec n 0) as [E|E]; destruct (Z.eqb_spec (n + 1) 0);
      try lia; rewrite ?E; reflexivity.
  - rewrite get_set_other by congruence. now rewrite Z.add_0_r.
Qed.

Lemma runLoop_NoDup rows :
  NoDup (map fst (acc_countryCounts (runLoop headers rows))).
Proof.
  induction rows as [|row rows IH] using rev_ind; [constructor|].
  rewrite runLoop_snoc, loopBody_spec.
  destruct (qualifies headers row); [|assumption].
  unfold counted; simpl.
  destruct (bucketOf _); [now apply NoDup_keys_set|assumption].
Qed.

End Loop.

(* ================================================================== *)
(** ** Effects: title lookup, fetch, cache *)
(* ================================================================== *)

Section Effects.
Import JS Server Spec.
Local Open Scope js_scope.

Lemma getSheetTitle_cached w s :
  titleTruthy (cachedSheetTitle s) = true ->
  getSheetTitle w s = (Ok (cachedSheetTitle s), s).
Proof.
  intros H. unfold getSheetTitle, bind, getState. now rewrite H.
Qed.

Lemma getSheetTitle_lookup w s :
  titleTruthy (cachedSheetTitle s) = false ->
  getSheetTitle w s =
  match spreadsheetsGet w with
  | Resolved title =>
      (Ok (orNull title),
       mkState (cache s) (orNull title) (trace s ++ [SpreadsheetsGet]))
  | Rejected e =>
      (Throw e, mkState (cache s) (cachedSheetTitle s) (trace s ++ [SpreadsheetsGet]))
  end.
Proof.
  intros H. unfold getSheetTitle, bind, getState, ask, emit, await, setTitle, ret.
  rewrite H. simpl. now destruct (spreadsheetsGet w).
Qed.

Lemma getSheetTitle_cache w s : cache (snd (getSheetTitle w s)) = cache s.
Proof.
  destruct (titleTruthy (cachedSheetTitle s)) eqn:E.
  - now rewrite getSheetTitle_cached.
  - rewrite getSheetTitle_lookup by assumption. now destruct (spreadsheetsGet w).
Qed.

Lemma fetchSheetRows_cache w s : cache (snd (fetchSheetRows w s)) = cache s.
Proof.
  unfold fetchSheetRows, bind.
  pose proof (getSheetTitle_cache w s) as H.
  destruct (getSheetTitle w s) as [[t|e] s1]; simpl in *; [|assumption].
  unfold ask, emit, await, ret; simpl.
  now destruct (valuesGet w _).
Qed.

(** A fetch that returns rows has sent exactly one read of cell values. *)
Lemma fetchSheetRows_fetches w s rows s1 :
  fetchSheetRows w s = (Ok rows, s1) -> fetches s1 = S (fetches s).
Proof.
  unfold fetchSheetRows, bind.
  assert (Ht : forall t s0, getSheetTitle w s = (Ok t, s0) -> fetches s0 = fetches s).
  { intros t s0. destruct (titleTruthy (cachedSheetTitle s)) eqn:E.
    - rewrite getSheetTitle_cached by assumption. now intros [= _ <-].
    - rewrite getSheetTitle_lookup by assumption.
      destruct (spreadsheetsGet w); intros [= _ <-].
      unfold fetches; simpl. rewrite filter_app; simpl. now rewrite app_nil_r. }
  destruct (getSheetTitle w s) as [[t|e] s0]; [|discriminate].
  specialize (Ht t s0 eq_refl).
  unfold ask, emit, await, ret; simpl.
  destruct (valuesGet w _); intros [= _ <-].
  unfold fetches in *; simpl. rewrite filter_app, length_app; simpl. lia.
Qed.

Lemma refresh_ok now w s rows s1 :
  fetchSheetRows w s = (Ok rows, s1) ->
  refresh now w s =
  (Ok (summaryOfRows rows (newDate w)),
   mkState (mkCache (Some (summaryOfRows rows (newDate w))) now)
           (cachedSheetTitle s1) (trace s1)).
Proof. intros H. unfold refresh, bind. now rewrite H. Qed.

Lemma refresh_throw now w s e s1 :
  fetchSheetRows w s = (Throw e, s1) -> refresh now w s = (Throw e, s1).
Proof. intros H. unfold refresh, bind. now rewrite H. Qed.

Lemma buildSummary_hit w s cached :
  data (cache s) = Some cached ->
  dateNow w - fetchedAt (cache s) < CACHE_TTL_MS ->
  buildSummary w s = (Ok cached, s).
Proof.
  intros Hd Hlt. unfold buildSummary, bind, ask, getState. rewrite Hd.
  apply Z.ltb_lt in Hlt. now rewrite Hlt.
Qed.

Lemma buildSummary_miss w s :
  isFresh (cache s) (dateNow w) = false ->
  buildSummary w s = refresh (dateNow w) w s.
Proof.
  unfold isFresh, buildSummary, bind, ask, getState.
  destruct (data (cache s)); [|reflexivity].
  now intros ->.
Qed.

Lemma isFresh_true s now : isFresh (cache s) now = true <-> freshAt s now.
Proof.
  unfold isFresh, freshAt, CACHE_TTL_MS. destruct (data (cache s)) as [c|].
  - rewrite Z.ltb_lt. split; [intros H; exists c; auto|now intros (? & _ & ?)].
  - split; [discriminate|now intros (? & ? & _)].
Qed.

(** What a call returns is the cached summary or the summary of the rows
    it fetched. *)
Lemma buildSummary_result w s summary :
  fst (buildSummary w s) = Ok summary ->
  data (cache s) = Some summary \/ exists rows, summary = summaryOfRows rows (newDate w).
Proof.
  destruct (isFresh (cache s) (dateNow w)) eqn:E.
  - apply isFresh_true in E as (c & Hd & Hlt).
    rewrite (buildSummary_hit w s c Hd Hlt). simpl. intros [= <-]. now left.
  - rewrite buildSummary_miss by assumption.
    destruct (fetchSheetRows w s) as [[rows|e] s1] eqn:F.
    + rewrite (refresh_ok _ _ _ _ _ F). simpl. intros [= <-]. right. now exists rows.
    + rewrite (refresh_throw _ _ _ _ _ F). discriminate.
Qed.

(** The cache slot after a call: untouched, or the summary just computed. *)
Lemma buildSummary_cache w s :
  cache (snd (buildSummary w s)) = cache s
  \/ exists rows, data (cache (snd (buildSummary w s)))
                  = Some (summaryOfRows rows (newDate w)).
Proof.
  destruct (isFresh (cache s) (dateNow w)) eqn:E.
  - apply isFresh_true in E as (c & Hd & Hlt).
    rewrite (buildSummary_hit w s c Hd Hlt). now left.
  - rewrite buildSummary_miss by assumption.
    destruct (fetchSheetRows w s) as [[rows|e] s1] eqn:F.
    + rewrite (refresh_ok _ _ _ _ _ F). right. now exists rows.
    + rewrite (refresh_throw _ _ _ _ _ F). left.
      change s1 with (snd (Throw (A := list Row) e, s1)). rewrite <- F.
      apply fetchSheetRows_cache.
Qed.

Lemma apiSummary_cache w s :
  cache (snd (apiSummary w s)) = cache (snd (buildSummary w s)).
Proof.
  unfold apiSummary, tryCatch, bind.
  now destruct (buildSummary w s) as [[r|e] s1].
Qed.

(** In every state the process reaches, the cached summary was computed
    from a fetched range. *)
Lemma reachable_cache_produced s :
  Reachable s -> forall c, data (cache s) = Some c -> Produced c.
Proof.
  induction 1 as [|w s Hs IH]; intros c; [discriminate|].
  rewrite apiSummary_cache.
  destruct (buildSummary_cache w s) as [-> | (rows & ->)]; [apply IH|].
  intros [= <-]. now exists rows, (newDate w).
Qed.

Lemma served_summary_produced w s summary :
  Reachable s -> fst (buildSummary w s) = Ok summary -> Produced summary.
Proof.
  intros Hs Hr. destruct (buildSummary_result w s summary Hr) as [Hd | (rows & ->)].
  - now apply (reachable_cache_produced s Hs).
  - now exists rows, (newDate w).
Qed.

End Effects.

(* ================================================================== *)
(** ** Properties of the summary *)
(* ================================================================== *)

Section Summary.
Import JS Server Spec.

Lemma summaryOfRows_balance rows date :
  total (summaryOfRows rows date)
  = sumCounts (countries (summaryOfRows rows date))
    + unknownCount (summaryOfRows rows date).
Proof.
  unfold summaryOfRows. destruct rows as [|headerRow rows]; [reflexivity|].
  cbn [List.length Z.of_nat Z.eqb summarize hd tl total countries unknownCount].
  rewrite (sumCounts_perm _ _ (countriesOf_perm _)).
  apply runLoop_balance.
Qed.

(** C1: every summary the server returns satisfies
    [total = sum(countries[*].count) + unknownCount]. *)
Theorem summary_total_is_sum_of_buckets s w summary :
  Reachable s ->
  fst (buildSummary w s) = Ok summary ->
  total summary = sumCounts (countries summary) + unknownCount summary.
Proof.
  intros Hs Hr.
  destruct (served_summary_produced w s summary Hs Hr) as (rows & date & ->).
  apply summaryOfRows_balance.
Qed.

Lemma summary_total_is_sum_of_buckets_witness :
  let summary := summaryOfRows Scenario.rows 1250 in
  total summary = sumCounts (countries summary) + unknownCount summary.
Proof.
  apply (summary_total_is_sum_of_buckets initialState (Scenario.world 1000 Scenario.rows)).
  - exact reach_start.
  - vm_compute. reflexivity.
Defined.

Lemma summaryOfRows_rate rows date :
  marketingRate (summaryOfRows rows date)
  = if (total (summaryOfRows rows date) =? 0)%Z then 0%float
    else PrimFloat.div (toNumber (marketingYes (summaryOfRows rows date)))
                       (toNumber (total (summaryOfRows rows date))).
Proof.
  unfold summaryOfRows. now destruct rows as [|headerRow rows].
Qed.

(** C8: in every summary the server returns, [marketingRate] is 0 when
    [total] is 0, and the quotient [marketingYes / total] of the two numbers
    when [total] is positive. *)
Theorem marketing_rate_is_quotient s w summary :
  Reachable s ->
  fst (buildSummary w s) = Ok summary ->
  (total summary = 0 -> marketingRate summary = 0%float)
  /\ (0 < total summary ->
      marketingRate summary
      = PrimFloat.div (toNumber (marketingYes summary)) (toNumber (total summary))).
Proof.
  intros Hs Hr.
  destruct (served_summary_produced w s summary Hs Hr) as (rows & date & ->).
  rewrite summaryOfRows_rate.
  destruct (Z.eqb_spec (total (summaryOfRows rows date)) 0) as [E|E];
    split; intros H; try reflexivity; lia.
Qed.

Lemma marketing_rate_is_quotient_witness :
  let summary := summaryOfRows Scenario.rows 1250 in
  total summary = 3 /\ marketingYes summary = 2
  /\ marketingRate summary = PrimFloat.div (toNumber 2) (toNumber 3)
  /\ marketingRate (summaryOfRows [Scenario.header] 1250) = 0%float.
Proof.
  cbv zeta. split; [reflexivity|]. split; [reflexivity|]. split.
  - apply (proj2 (marketing_rate_is_quotient initialState
                    (Scenario.world 1000 Scenario.rows) _ reach_start eq_refl)).
    vm_compute. reflexivity.
  - apply (proj1 (marketing_rate_is_quotient initialState
                    (Scenario.world 1000 [Scenario.header]) _ reach_start eq_refl)).
    reflexivity.
Defined.

End Summary.

(* ================================================================== *)
(** ** Properties of the rows that are counted *)
(* ================================================================== *)

Section Rows.
Import JS Server Spec.

Lemma runLoop_filter headers rows :
  runLoop headers (filter (qualifies headers) rows) = runLoop headers rows.
Proof.
  unfold runLoop. generalize acc0.
  induction rows as [|row rows IH]; intros a; simpl; [reflexivity|].
  rewrite (loopBody_spec headers a row).
  destruct (qualifies headers row) eqn:E; simpl; [|apply IH].
  rewrite loopBody_spec, E. apply IH.
Qed.

(** C5: a data row adds one to [total] exactly when it has a non-blank
    cell and a non-blank [email] or [timestamp]; every other row leaves
    all accumulators, hence the whole summary, as they were. *)
Theorem total_counts_qualifying_rows headerRow rows date :
  let headers := map normalizeHeader headerRow in
  total (summaryOfRows (headerRow :: rows) date)
  = Z.of_nat (List.length (filter (qualifies headers) rows))
  /\ summaryOfRows (headerRow :: filter (qualifies headers) rows) date
     = summaryOfRows (headerRow :: rows) date
  /\ forall a row,
       (acc_total (loopBody headers a row) = acc_total a + 1
        <-> qualifies headers row = true)
       /\ (qualifies headers row = false -> loopBody headers a row = a).
Proof.
  intros headers. split; [|split].
  - apply runLoop_total.
  - unfold summaryOfRows, summarize.
    cbn [List.length Z.of_nat Z.eqb hd tl]. fold headers.
    now rewrite runLoop_filter.
  - intros a row. rewrite loopBody_spec.
    destruct (qualifies headers row); simpl; split; try tauto; try easy.
    split; [lia|discriminate].
Qed.

Lemma total_counts_qualifying_rows_witness :
  total (summaryOfRows Scenario.ragged 0) = 4
  /\ loopBody ["email"; "ip_country"] (mkAcc 4 2 1 [("US", 3)]) [VNull; VStr "mx"; VStr "yes"]
     = mkAcc 4 2 1 [("US", 3)].
Proof.
  split.
  - exact (proj1 (total_counts_qualifying_rows
                    (hd [] Scenario.ragged) (tl Scenario.ragged) 0)).
  - apply (proj2 (proj2 (total_counts_qualifying_rows
                           [VStr "email"; VStr "ip_country"] [] 0))).
    reflexivity.
Defined.

Lemma has_In set x : has set x = true <-> In x set.
Proof.
  unfold has. rewrite existsb_exists. split.
  - intros (y & Hy & E). apply String.eqb_eq in E. now subst.
  - intros H. exists x. split; [assumption|apply String.eqb_refl].
Qed.

(** C9: a qualifying row adds one to [marketingYes] exactly when its
    consent field, trimmed and lower-cased, is one of "true", "1", "yes",
    "si"; "TRUE", "Yes", "1", "si" and " SI " consent, "no", "0", "" and
    "false" do not. *)
Theorem consent_counted_iff_truthy headers a row :
  qualifies headers row = true ->
  let consent :=
    toLowerCase (trim (toString (or (getValue headers row "acepta_marketing") (VStr "")))) in
  let a' := loopBody headers a row in
  (acc_marketingYes a' = acc_marketingYes a + 1 <-> In consent ["true"; "1"; "yes"; "si"])
  /\ (acc_marketingYes a' = acc_marketingYes a <-> ~ In consent ["true"; "1"; "yes"; "si"])
  /\ Forall (fun s => isTruthy (VStr s) = true) ["TRUE"; "Yes"; "1"; "si"; " SI "]
  /\ Forall (fun s => isTruthy (VStr s) = false) ["no"; "0"; ""; "false"].
Proof.
  intros Hq consent a'. subst a'. rewrite loopBody_spec, Hq.
  unfold counted; cbn [acc_marketingYes].
  change (isTruthy (getValue headers row "acepta_marketing"))
    with (has truthyValues consent).
  assert (Hin : has truthyValues consent = true
                <-> In consent ["true"; "1"; "yes"; "si"]) by apply has_In.
  split; [|split; [|split]].
  - destruct (has truthyValues consent).
    + split; [intros _; now apply Hin|reflexivity].
    + split; [lia|]. intros H. apply Hin in H. discriminate.
  - destruct (has truthyValues consent).
    + split; [lia|]. intros H. exfalso. apply H. now apply Hin.
    + split; [|reflexivity]. intros _ H. apply Hin in H. discriminate.
  - repeat constructor.
  - repeat constructor.
Qed.

Lemma consent_counted_iff_truthy_witness :
  acc_marketingYes
    (loopBody ["email"; "acepta_marketing"] acc0 [VStr "a@x.com"; VStr " SI "])
  = 1.
Proof.
  apply (proj1 (consent_counted_iff_truthy
                  ["email"; "acepta_marketing"] acc0
                  [VStr "a@x.com"; VStr " SI "] eq_refl)).
  simpl. tauto.
Defined.

End Rows.

(* ================================================================== *)
(** ** Properties of the country buckets *)
(* ================================================================== *)

Section Buckets.
Import JS Server Spec.

Lemma bucketOf_Some v c :
  bucketOf v = Some c <-> countryOf v = c /\ c <> "" /\ c <> "UNKNOWN".
Proof.
  unfold bucketOf.
  destruct (String.eqb_spec (countryOf v) "") as [E1|E1];
    destruct (String.eqb_spec (countryOf v) "UNKNOWN") as [E2|E2]; simpl;
    (split; [intros [= <-] | intros (<- & H1 & H2)]); try congruence; auto.
Qed.

Lemma bucketOf_None v :
  bucketOf v = None <-> countryOf v = "" \/ countryOf v = "UNKNOWN".
Proof.
  unfold bucketOf.
  destruct (String.eqb_spec (countryOf v) "") as [E1|E1];
    destruct (String.eqb_spec (countryOf v) "UNKNOWN") as [E2|E2]; simpl;
    split; auto; try discriminate. intros [|]; contradiction.
Qed.

Lemma countryOf_nonempty x :
  x <> "" -> countryOf (VStr x) = toUpperCase (trim x).
Proof. intros H. destruct x; [contradiction|reflexivity]. Qed.

Lemma app_nonempty l x r : x <> "" -> (l ++ x ++ r)%string <> "".
Proof.
  intros H. destruct l; simpl; [|discriminate].
  destruct x; [contradiction|discriminate].
Qed.

(** Letter case and surrounding white space do not change the bucket. *)
Lemma bucketOf_insensitive l s s' r :
  allWhite l = true -> allWhite r = true -> toLowerCase s' = toLowerCase s ->
  bucketOf (VStr (l ++ s' ++ r)) = bucketOf (VStr s).
Proof.
  intros Hl Hr Hcase.
  destruct s as [|c s].
  - apply mapChars_empty in Hcase. subst s'.
    destruct (l ++ "" ++ r)%string eqn:E; [reflexivity|].
    unfold bucketOf. rewrite countryOf_nonempty by discriminate.
    rewrite <- E, trim_padded by assumption. reflexivity.
  - assert (s' <> "") as Hs'.
    { intros ->. discriminate. }
    unfold bucketOf.
    rewrite (countryOf_nonempty (l ++ s' ++ r)) by now apply app_nonempty.
    rewrite (countryOf_nonempty (String c s)) by discriminate.
    rewrite trim_padded by assumption.
    now rewrite (toUpperCase_trim_nocase _ _ Hcase).
Qed.

(** C6: a qualifying row is bucketed under its country code trimmed and
    upper-cased: an empty code or "UNKNOWN" adds one to [unknownCount] and
    leaves the country counter alone, any other code adds one to its own
    property and to no other; codes that differ in letter case or in
    surrounding white space fall in the same bucket. *)
Theorem country_code_normalized_before_bucketing headers a row :
  qualifies headers row = true ->
  let c := countryOf (getValue headers row "ip_country") in
  let a' := loopBody headers a row in
  (c = "" \/ c = "UNKNOWN" ->
     acc_unknownCount a' = acc_unknownCount a + 1
     /\ acc_countryCounts a' = acc_countryCounts a)
  /\ (c <> "" /\ c <> "UNKNOWN" ->
     acc_unknownCount a' = acc_unknownCount a
     /\ Obj.get (acc_countryCounts a') c = Some (getOr0 (acc_countryCounts a) c + 1)
     /\ forall k, k <> c -> Obj.get (acc_countryCounts a') k = Obj.get (acc_countryCounts a) k)
  /\ (forall l s s' r,
        allWhite l = true -> allWhite r = true -> toLowerCase s' = toLowerCase s ->
        countryOf (VStr (l ++ s' ++ r)) = countryOf (VStr s)
        \/ (bucketOf (VStr (l ++ s' ++ r)) = None /\ bucketOf (VStr s) = None))
  /\ countries (summaryOfRows
                  [ [VStr "email"; VStr "ip_country"];
                    [VStr "a"; VStr " us "]; [VStr "b"; VStr "US"]; [VStr "c"; VStr "us"] ] 0)
     = [mkEntry "US" 3].
Proof.
  intros Hq c a'. subst a'. rewrite loopBody_spec, Hq. unfold counted.
  fold c. cbn [acc_unknownCount acc_countryCounts].
  split; [|split; [|split]].
  - intros Hc. apply bucketOf_None in Hc. fold c. now rewrite Hc.
  - intros (H1 & H2).
    assert (bucketOf (getValue headers row "ip_country") = Some c) as ->.
    { now apply bucketOf_Some. }
    split; [reflexivity|]. split; [apply get_set_same|].
    intros k Hk. now apply get_set_other.
  - intros l s s' r Hl Hr Hcase.
    pose proof (bucketOf_insensitive l s s' r Hl Hr Hcase) as Hb.
    destruct (bucketOf (VStr s)) as [k|] eqn:E.
    + left. apply bucketOf_Some in Hb as (-> & _). apply bucketOf_Some in E as (-> & _).
      reflexivity.
    + now right.
  - reflexivity.
Qed.

Lemma country_code_normalized_before_bucketing_witness :
  Obj.get
    (acc_countryCounts
       (loopBody ["email"; "ip_country"] (mkAcc 2 0 0 [("US", 2)]) [VStr "c"; VStr " us "]))
    "US"
  = Some 3.
Proof.
  apply (proj1 (proj2 (country_code_normalized_before_bucketing
                         ["email"; "ip_country"] (mkAcc 2 0 0 [("US", 2)])
                         [VStr "c"; VStr " us "] eq_refl))).
  split; discriminate.
Defined.

End Buckets.

(* ================================================================== *)
(** ** Properties of the country list *)
(* ================================================================== *)

Section Countries.
Import JS Server Spec.

Lemma summaryOfRows_summarize rows date : summaryOfRows rows date = summarize rows date.
Proof. now destruct rows. Qed.

Lemma filter_length_nonzero {A} (f : A -> bool) (l : list A) :
  List.length (filter f l) <> 0%nat <-> exists x, In x l /\ f x = true.
Proof.
  induction l as [|x l IH]; simpl.
  - split; [congruence|now intros (? & [] & _)].
  - destruct (f x) eqn:E; simpl.
    + split; [intros _; exists x; auto|discriminate].
    + rewrite IH. split.
      * intros (y & Hy & Hf). exists y. auto.
      * intros (y & [<-|Hy] & Hf); [congruence|]. exists y. auto.
Qed.

Lemma isBucket_true c b : isBucket c b = true <-> b = Some c.
Proof.
  destruct b as [c'|]; simpl; [|split; discriminate].
  rewrite String.eqb_eq. split; congruence.
Qed.

Lemma rowBucket_Some headers row c :
  rowBucket headers row = Some c
  <-> qualifies headers row = true
      /\ countryOf (getValue headers row "ip_country") = c
      /\ c <> "" /\ c <> "UNKNOWN".
Proof.
  unfold rowBucket. destruct (qualifies headers row).
  - rewrite bucketOf_Some. tauto.
  - split; [discriminate|now intros (? & _)].
Qed.

Lemma rowsIn_nonzero headers rows c :
  rowsIn headers rows c <> 0
  <-> exists row, In row rows /\ rowBucket headers row = Some c.
Proof.
  unfold rowsIn.
  pose proof (filter_length_nonzero (fun r => isBucket c (rowBucket headers r)) rows)
    as [Hto Hfrom].
  split.
  - intros H. destruct Hto as (row & Hin & Hb); [lia|].
    exists row. split; [assumption|now apply isBucket_true].
  - intros (row & Hin & Hb).
    assert (List.length (filter (fun r => isBucket c (rowBucket headers r)) rows) <> 0%nat).
    { apply Hfrom. exists row. split; [assumption|now apply isBucket_true]. }
    lia.
Qed.

Lemma get_In o k v : NoDup (map fst o) -> In (k, v) o -> Obj.get o k = Some v.
Proof.
  induction o as [|[k0 v0] o IH]; simpl; [tauto|].
  intros Hnd [[= -> ->]|Hin].
  - now rewrite String.eqb_refl.
  - inversion Hnd as [|? ? Hnotin Hnd']; subst.
    destruct (String.eqb_spec k0 k) as [->|]; [|auto].
    exfalso. apply Hnotin. change k with (fst (k, v)). now apply in_map.
Qed.

Lemma codes_countriesOf o : Permutation (map code (countriesOf o)) (map fst o).
Proof.
  rewrite (Permutation_map code (countriesOf_perm o)), map_map.
  now rewrite (map_ext _ fst) by reflexivity.
Qed.

(** The country list of a range, in terms of its data rows. *)
Lemma summarize_countries rows date :
  let headers := map normalizeHeader (hd [] rows) in
  let summary := summarize rows date in
  countDescending (countries summary)
  /\ NoDup (map code (countries summary))
  /\ (forall c, In c (map code (countries summary))
                <-> exists row, In row (tl rows) /\ rowBucket headers row = Some c)
  /\ (forall e, In e (countries summary) -> count e = rowsIn headers (tl rows) (code e))
  /\ topCountry summary = match countries summary with [] => None | e :: _ => Some e end.
Proof.
  intros headers summary. subst summary. unfold summarize. fold headers.
  cbn [countries topCountry].
  set (a := runLoop headers (tl rows)).
  pose proof (runLoop_NoDup headers (tl rows)) as Hnd. fold a in Hnd.
  split; [apply sort_sorted|]. split; [|split; [|split]].
  - apply (Permutation_NoDup (l := map fst (acc_countryCounts a))); [|assumption].
    symmetry. apply codes_countriesOf.
  - intros c. rewrite <- rowsIn_nonzero.
    pose proof (runLoop_get headers (tl rows) c) as Hget. fold a in Hget.
    pose proof (get_None_iff (acc_countryCounts a) c) as Hnone.
    split.
    + intros Hin Hz. rewrite Hz in Hget. simpl in Hget. apply Hnone in Hget.
      apply Hget. now apply (Permutation_in _ (codes_countriesOf _)).
    + intros Hnz. apply (Permutation_in _ (Permutation_sym (codes_countriesOf _))).
      destruct (in_dec string_dec c (map fst (acc_countryCounts a))) as [|Hnot];
        [assumption|].
      apply Hnone in Hnot. rewrite Hnot in Hget.
      destruct (Z.eqb_spec (rowsIn headers (tl rows) c) 0); [contradiction|discriminate].
  - intros e Hin.
    apply (Permutation_in _ (countriesOf_perm _)) in Hin.
    apply in_map_iff in Hin as ([k v] & <- & Hkv).
    apply (get_In _ _ _ Hnd) in Hkv.
    pose proof (runLoop_get headers (tl rows) k) as Hget. fold a in Hget.
    rewrite Hkv in Hget. simpl.
    destruct (Z.eqb_spec (rowsIn headers (tl rows) k) 0); congruence.
  - now destruct (countriesOf (acc_countryCounts a)).
Qed.

(** C7: the country list of a summary is sorted by non-increasing count
    and has one entry for each distinct normalized code, other than the
    empty code and "UNKNOWN", of a qualifying row; [topCountry] is its
    first entry, or [null] when it is empty; the list is the same whenever
    the same range is fetched. *)
Theorem countries_sorted_one_entry_per_code w s rows s1 :
  isFresh (cache s) (dateNow w) = false ->
  fetchSheetRows w s = (Ok rows, s1) ->
  let headers := map normalizeHeader (hd [] rows) in
  exists summary s2,
    buildSummary w s = (Ok summary, s2)
    /\ countDescending (countries summary)
    /\ NoDup (map code (countries summary))
    /\ (forall c, In c (map code (countries summary))
          <-> exists row, In row (tl rows)
                /\ qualifies headers row = true
                /\ countryOf (getValue headers row "ip_country") = c
                /\ c <> "" /\ c <> "UNKNOWN")
    /\ (forall e, In e (countries summary) -> count e = rowsIn headers (tl rows) (code e))
    /\ topCountry summary = match countries summary with [] => None | e :: _ => Some e end
    /\ (forall w' s' s1' summary' s2',
          isFresh (cache s') (dateNow w') = false ->
          fetchSheetRows w' s' = (Ok rows, s1') ->
          buildSummary w' s' = (Ok summary', s2') ->
          countries summary' = countries summary
          /\ topCountry summary' = topCountry summary).
Proof.
  intros Hstale Hfetch headers.
  rewrite buildSummary_miss, (refresh_ok _ _ _ _ _ Hfetch) by assumption.
  eexists _, _. split; [reflexivity|].
  rewrite summaryOfRows_summarize.
  destruct (summarize_countries rows (newDate w)) as (Hsorted & Hnd & Hmem & Hcount & Htop).
  fold headers in Hmem, Hcount.
  split; [assumption|]. split; [assumption|]. split; [|split; [assumption|split; [assumption|]]].
  - intros c. rewrite Hmem. split; intros (row & Hrow & Hb); exists row;
      (split; [assumption|now apply rowBucket_Some]).
  - intros w' s' s1' summary' s2' Hstale' Hfetch' Hrun'.
    rewrite buildSummary_miss, (refresh_ok _ _ _ _ _ Hfetch') in Hrun' by assumption.
    injection Hrun' as <- _. now rewrite summaryOfRows_summarize.
Qed.

Lemma countries_sorted_one_entry_per_code_witness :
  exists summary s2,
    buildSummary (Scenario.world 1000 Scenario.rows) initialState = (Ok summary, s2)
    /\ countDescending (countries summary)
    /\ topCountry summary = match countries summary with [] => None | e :: _ => Some e end.
Proof.
  destruct (countries_sorted_one_entry_per_code
              (Scenario.world 1000 Scenario.rows) initialState Scenario.rows
              (snd (fetchSheetRows (Scenario.world 1000 Scenario.rows) initialState))
              eq_refl eq_refl)
    as (summary & s2 & Hrun & Hsorted & _ & _ & _ & Htop & _).
  exists summary, s2. auto.
Defined.

End Countries.

(* ================================================================== *)
(** ** Properties of the cache and of failures *)
(* ================================================================== *)

Section CacheAndFailures.
Import JS Server Spec.

(** C2: while the cache entry exists and is younger than 60 seconds, a
    call returns the cached summary and leaves the whole state, the trace
    of outside calls included, as it was; so a call that had to fetch,
    followed by a call less than 60 seconds later, make one read of cell
    values together and return the same summary, [updatedAt] included. *)
Theorem fresh_cache_is_served_untouched :
  (forall w s cached,
     data (cache s) = Some cached ->
     dateNow w - fetchedAt (cache s) < 60 * 1000 ->
     buildSummary w s = (Ok cached, s))
  /\ (forall w1 w2 s summary1 s1,
        isFresh (cache s) (dateNow w1) = false ->
        buildSummary w1 s = (Ok summary1, s1) ->
        dateNow w2 - dateNow w1 < 60 * 1000 ->
        exists summary2 s2,
          buildSummary w2 s1 = (Ok summary2, s2)
          /\ fetches s2 = S (fetches s)
          /\ updatedAt summary2 = updatedAt summary1
          /\ summary2 = summary1 /\ s2 = s1).
Proof.
  split.
  - intros w s cached Hd Hlt. now apply buildSummary_hit.
  - intros w1 w2 s summary1 s1 Hstale Hrun Hlt.
    rewrite buildSummary_miss in Hrun by assumption.
    destruct (fetchSheetRows w1 s) as [[rows|e] s0] eqn:F.
    + rewrite (refresh_ok _ _ _ _ _ F) in Hrun. injection Hrun as <- <-.
      eexists _, _. split; [now apply buildSummary_hit|].
      split; [|auto]. apply (fetchSheetRows_fetches _ _ _ _ F).
    + rewrite (refresh_throw _ _ _ _ _ F) in Hrun. discriminate.
Qed.

Lemma fresh_cache_is_served_untouched_witness :
  let first := buildSummary (Scenario.world 1000 Scenario.rows) initialState in
  let second := buildSummary (Scenario.failing 11000) (snd first) in
  second = first /\ fetches (snd second) = 1%nat.
Proof.
  cbv zeta.
  destruct (proj2 fresh_cache_is_served_untouched
              (Scenario.world 1000 Scenario.rows) (Scenario.failing 11000)
              initialState _ _ eq_refl eq_refl eq_refl)
    as (summary2 & s2 & Hrun & Hfetches & _ & Hsame & Hstate).
  split.
  - transitivity (Ok summary2, s2); [exact Hrun|].
    rewrite Hsame, Hstate. reflexivity.
  - transitivity (fetches s2); [|exact Hfetches].
    exact (f_equal (fun r => fetches (snd r)) Hrun).
Defined.

(** C3: when the fetch of a call fails, the call fails with the same
    error and the cache slot is what it was; the handler then answers 500
    with the body [{error: "Failed to load sheet data"}], whatever the
    error was. *)
Theorem fetch_failure_propagates_cache_untouched w s e s1 :
  isFresh (cache s) (dateNow w) = false ->
  fetchSheetRows w s = (Throw e, s1) ->
  buildSummary w s = (Throw e, s1)
  /\ cache s1 = cache s
  /\ fst (apiSummary w s) = Ok (mkResponse 500 (ErrorBody "Failed to load sheet data"))
  /\ cache (snd (apiSummary w s)) = cache s.
Proof.
  intros Hstale Hfetch.
  assert (Hrun : buildSummary w s = (Throw e, s1)).
  { rewrite buildSummary_miss by assumption. now apply refresh_throw. }
  assert (Hcache : cache s1 = cache s).
  { change s1 with (snd (Throw (A := list Row) e, s1)). rewrite <- Hfetch.
    apply fetchSheetRows_cache. }
  split; [assumption|]. split; [assumption|].
  split.
  - unfold apiSummary, tryCatch, bind. now rewrite Hrun.
  - now rewrite apiSummary_cache, Hrun.
Qed.

Lemma fetch_failure_propagates_cache_untouched_witness :
  let stale := snd (buildSummary (Scenario.world 1000 Scenario.rows) initialState) in
  fst (buildSummary (Scenario.failing 61000) stale) = Throw "quota exceeded"
  /\ cache (snd (apiSummary (Scenario.failing 61000) stale)) = cache stale
  /\ fst (apiSummary (Scenario.failing 61000) stale)
     = Ok (mkResponse 500 (ErrorBody "Failed to load sheet data")).
Proof.
  cbv zeta.
  destruct (fetch_failure_propagates_cache_untouched
              (Scenario.failing 61000)
              (snd (buildSummary (Scenario.world 1000 Scenario.rows) initialState))
              "quota exceeded" _ eq_refl eq_refl)
    as (Hrun & _ & Hresp & Hcache).
  split; [now rewrite Hrun|]. split; assumption.
Defined.

Lemma indexOfFrom_absent headers name i :
  ~ In name headers -> indexOfFrom headers name i = -1.
Proof.
  revert i. induction headers as [|h headers IH]; intros i Hnot; simpl; [reflexivity|].
  destruct (String.eqb_spec h name) as [->|_].
  - exfalso. apply Hnot. now left.
  - apply IH. intros H. apply Hnot. now right.
Qed.

Lemma indexOfFrom_range headers name i :
  indexOfFrom headers name i = -1 \/ i <= indexOfFrom headers name i.
Proof.
  revert i. induction headers as [|h headers IH]; intros i; simpl; [now left|].
  destruct (h =? name)%string; [right; lia|].
  destruct (IH (i + 1)); [now left|right; lia].
Qed.

(** C10: a field whose column is missing from the header, lies beyond
    the end of the row, or holds a falsy cell reads as the empty string;
    and whatever rows the fetch returns, the call returns their summary
    and the handler answers 200. *)
Theorem ragged_rows_never_abort :
  (forall headers row name,
     ~ In name headers
     \/ Z.of_nat (List.length row) <= indexOf headers name
     \/ truthy (at_ row (indexOf headers name)) = false ->
     getValue headers row name = VStr "")
  /\ (forall w s rows s1,
        isFresh (cache s) (dateNow w) = false ->
        fetchSheetRows w s = (Ok rows, s1) ->
        fst (buildSummary w s) = Ok (summaryOfRows rows (newDate w))
        /\ fst (apiSummary w s)
           = Ok (mkResponse 200 (SummaryBody (summaryOfRows rows (newDate w))))).
Proof.
  split.
  - intros headers row name H. unfold getValue.
    destruct (Z.eqb_spec (indexOf headers name) (-1)) as [|Hidx]; [reflexivity|].
    assert (Hfalsy : truthy (at_ row (indexOf headers name)) = false).
    { destruct H as [Habs|[Hlong|Hfalsy]].
      - exfalso. apply Hidx. now apply indexOfFrom_absent.
      - unfold at_. destruct (indexOf headers name <? 0)%Z; [reflexivity|].
        rewrite nth_overflow; [reflexivity|lia].
      - assumption. }
    unfold or. now rewrite Hfalsy.
  - intros w s rows s1 Hstale Hfetch.
    assert (Hrun : fst (buildSummary w s) = Ok (summaryOfRows rows (newDate w))).
    { rewrite buildSummary_miss by assumption. now rewrite (refresh_ok _ _ _ _ _ Hfetch). }
    split; [assumption|].
    unfold apiSummary, tryCatch, bind.
    destruct (buildSummary w s) as [[r|e] s2]; simpl in Hrun; [|discriminate].
    now injection Hrun as ->.
Qed.

Lemma ragged_rows_never_abort_witness :
  getValue ["email"; "ip_country"; "acepta_marketing"] [VStr "a@x.com"; VStr " us "]
           "acepta_marketing" = VStr ""
  /\ fst (apiSummary (Scenario.world 1000 Scenario.ragged) initialState)
     = Ok (mkResponse 200 (SummaryBody (summaryOfRows Scenario.ragged 1250))).
Proof.
  split.
  - apply (proj1 ragged_rows_never_abort). right. left. vm_compute. discriminate.
  - apply (proj2 ragged_rows_never_abort
             (Scenario.world 1000 Scenario.ragged) initialState Scenario.ragged
             (snd (fetchSheetRows (Scenario.world 1000 Scenario.ragged) initialState))
             eq_refl eq_refl).
Defined.

End CacheAndFailures.

(* ================================================================== *)
(** ** Properties of the sheet title *)
(* ================================================================== *)

Section SheetTitle.
Import JS Server Spec.

Lemma titleTruthy_Some title : titleTruthy (Some title) = true -> title <> "".
Proof. intros H ->. discriminate. Qed.

Lemma lookups_snoc c t c' t' tr :
  lookups (mkState c t (tr ++ [SpreadsheetsGet])) = S (lookups (mkState c' t' tr)).
Proof. unfold lookups; simpl. rewrite filter_app, length_app; simpl. lia. Qed.

(** C4, as stated, fails: when the first lookup reports no sheet, the
    title cache stays empty and the next call looks the title up again. *)
Lemma sheet_title_looked_up_again_after_empty_reply :
  ~ (forall w1 s title s1,
       titleTruthy (cachedSheetTitle s) = false ->
       getSheetTitle w1 s = (Ok title, s1) ->
       forall w2,
         fst (getSheetTitle w2 s1) = Ok title
         /\ lookups (snd (getSheetTitle w2 s1)) = lookups s1).
Proof.
  intros claim.
  destruct (claim (Scenario.untitled 1000) initialState None
                  (mkState (mkCache None 0) None [SpreadsheetsGet])
                  eq_refl eq_refl (Scenario.untitled 2000)) as [_ Hlookups].
  vm_compute in Hlookups. discriminate Hlookups.
Qed.

(** C4, amended: a call that returns a title returns a non-empty one
    and leaves it cached, and every call made while that title is cached
    returns it without a metadata lookup and without touching the state;
    a call that returns no title leaves the title cache empty, and a call
    made while the title cache is empty, the next one in particular,
    performs the metadata lookup again. *)
Theorem sheet_title_cached_once_nonempty w1 s result s1 :
  getSheetTitle w1 s = (Ok result, s1) ->
  match result with
  | Some title =>
      title <> ""
      /\ cachedSheetTitle s1 = Some title
      /\ forall w2 s2,
           cachedSheetTitle s2 = Some title ->
           getSheetTitle w2 s2 = (Ok (Some title), s2)
  | None =>
      cachedSheetTitle s1 = None
      /\ forall w2 s2,
           cachedSheetTitle s2 = None ->
           lookups (snd (getSheetTitle w2 s2)) = S (lookups s2)
  end.
Proof.
  assert (Hkept : forall title, titleTruthy (Some title) = true ->
            forall w2 s2, cachedSheetTitle s2 = Some title ->
                          getSheetTitle w2 s2 = (Ok (Some title), s2)).
  { intros title T w2 s2 H2. rewrite <- H2. apply getSheetTitle_cached. now rewrite H2. }
  destruct (titleTruthy (cachedSheetTitle s)) eqn:E.
  - rewrite getSheetTitle_cached by assumption. intros [= <- <-].
    destruct (cachedSheetTitle s) as [title|] eqn:T; [|discriminate].
    split; [now apply titleTruthy_Some|]. split; [reflexivity|].
    now apply Hkept.
  - rewrite getSheetTitle_lookup by assumption.
    destruct (spreadsheetsGet w1) as [reply|e]; [|discriminate].
    intros [= <- <-]. unfold orNull.
    destruct (titleTruthy reply) eqn:T.
    + destruct reply as [title|]; [|discriminate].
      split; [now apply titleTruthy_Some|]. split; [reflexivity|].
      now apply Hkept.
    + split; [reflexivity|].
      intros w2 s2 H2. rewrite getSheetTitle_lookup by now rewrite H2.
      destruct (spreadsheetsGet w2); cbn [snd];
        rewrite (lookups_snoc _ _ (cache s2) (cachedSheetTitle s2));
        now destruct s2.
Qed.

Lemma sheet_title_cached_once_nonempty_witness :
  let w := Scenario.world 1000 Scenario.rows in
  let s1 := snd (getSheetTitle w initialState) in
  getSheetTitle (Scenario.untitled 2000) s1 = (Ok (Some "Signups"), s1)
  /\ lookups s1 = 1%nat.
Proof.
  cbv zeta. split; [|reflexivity].
  apply (sheet_title_cached_once_nonempty
           (Scenario.world 1000 Scenario.rows) initialState (Some "Signups")
           (snd (getSheetTitle (Scenario.world 1000 Scenario.rows) initialState))
           eq_refl).
  reflexivity.
Defined.

End SheetTitle.

(* ================================================================== *)
(** ** The private key handed to the client *)
(* ================================================================== *)

Section PrivateKey.
Import Auth.

Lemma replaceEscapedNewlines_cons c rest :
  replaceEscapedNewlines (String c rest)
  = match rest with
    | String c' rest' =>
        if (c =? backslash)%char && (c' =? "n")%char
        then String lineFeed (replaceEscapedNewlines rest')
        else String c (replaceEscapedNewlines rest)
    | EmptyString => String c EmptyString
    end.
Proof. reflexivity. Qed.

(** The output starts with the first input character or, in its place,
    with a line feed. *)
Lemma replaceEscapedNewlines_head c rest :
  exists out,
    replaceEscapedNewlines (String c rest) = String c out
    \/ (c = backslash /\ replaceEscapedNewlines (String c rest) = String lineFeed out).
Proof.
  rewrite replaceEscapedNewlines_cons. destruct rest as [|c' rest'].
  - exists EmptyString. now left.
  - destruct (Ascii.eqb_spec c backslash) as [->|]; simpl.
    + destruct (c' =? "n")%char; eexists; [right|left]; auto.
    + eexists. now left.
Qed.

Lemma hasEscapedNewline_cons c c' rest :
  hasEscapedNewline (String c (String c' rest))
  = ((c =? backslash)%char && (c' =? "n")%char) || hasEscapedNewline (String c' rest).
Proof. reflexivity. Qed.

Lemma no_escape_left_upto n :
  forall s, (String.length s <= n)%nat ->
            hasEscapedNewline (replaceEscapedNewlines s) = false.
Proof.
  induction n as [|n IH]; intros s Hlen.
  - destruct s; [reflexivity|simpl in Hlen; lia].
  - destruct s as [|c rest]; [reflexivity|].
    rewrite replaceEscapedNewlines_cons.
    destruct rest as [|c' rest']; [reflexivity|].
    simpl in Hlen.
    assert (Hrest : hasEscapedNewline (replaceEscapedNewlines (String c' rest')) = false)
      by (apply IH; simpl; lia).
    assert (Hrest' : hasEscapedNewline (replaceEscapedNewlines rest') = false)
      by (apply IH; lia).
    destruct ((c =? backslash)%char && (c' =? "n")%char) eqn:E.
    + destruct rest' as [|c2 rest2]; [reflexivity|].
      destruct (replaceEscapedNewlines_head c2 rest2) as (out & [Ho|[_ Ho]]);
        rewrite Ho in *; rewrite hasEscapedNewline_cons, Hrest'.
      * now rewrite orb_false_r.
      * now rewrite orb_false_r.
    + destruct (replaceEscapedNewlines_head c' rest') as (out & [Ho|[Hc Ho]]);
        rewrite Ho in *; rewrite hasEscapedNewline_cons, Hrest.
      * now rewrite E.
      * now rewrite andb_false_r.
Qed.

Lemma replaceEscapedNewlines_fixed_upto n :
  forall s, (String.length s <= n)%nat ->
            hasEscapedNewline s = false -> replaceEscapedNewlines s = s.
Proof.
  induction n as [|n IH]; intros s Hlen Hno.
  - destruct s; [reflexivity|simpl in Hlen; lia].
  - destruct s as [|c rest]; [reflexivity|].
    rewrite replaceEscapedNewlines_cons.
    destruct rest as [|c' rest']; [reflexivity|].
    rewrite hasEscapedNewline_cons in Hno. apply orb_false_elim in Hno as [E Hrest].
    rewrite E. f_equal. apply IH; [simpl in Hlen |- *; lia|exact Hrest].
Qed.

(** X1: the key given to the client holds no backslash-n pair any more,
    whatever [PRIVATE_KEY] is; a key without such a pair is passed on
    as it is, so formatting an already formatted key changes nothing. *)
Theorem client_key_has_no_escaped_newline CLIENT_EMAIL PRIVATE_KEY :
  hasEscapedNewline (key (getAuthClient CLIENT_EMAIL PRIVATE_KEY)) = false
  /\ (hasEscapedNewline PRIVATE_KEY = false ->
      key (getAuthClient CLIENT_EMAIL PRIVATE_KEY) = PRIVATE_KEY)
  /\ getAuthClient CLIENT_EMAIL (key (getAuthClient CLIENT_EMAIL PRIVATE_KEY))
     = getAuthClient CLIENT_EMAIL PRIVATE_KEY.
Proof.
  unfold getAuthClient; cbn [key].
  assert (Hno : hasEscapedNewline (replaceEscapedNewlines PRIVATE_KEY) = false)
    by (apply (no_escape_left_upto (String.length PRIVATE_KEY)); lia).
  split; [exact Hno|]. split.
  - intros H. apply (replaceEscapedNewlines_fixed_upto (String.length PRIVATE_KEY)); [lia|exact H].
  - f_equal.
    apply (replaceEscapedNewlines_fixed_upto
             (String.length (replaceEscapedNewlines PRIVATE_KEY))); [lia|exact Hno].
Qed.

Lemma client_key_has_no_escaped_newline_witness :
  key (getAuthClient "svc@x.iam" "-----BEGIN-----") = "-----BEGIN-----"
  /\ hasEscapedNewline
       (key (getAuthClient "svc@x.iam" (String backslash (String backslash "nn")))) = false.
Proof.
  split.
  - apply (proj1 (proj2 (client_key_has_no_escaped_newline "svc@x.iam" "-----BEGIN-----"))).
    reflexivity.
  - apply (proj1 (client_key_has_no_escaped_newline "svc@x.iam" _)).
Defined.

End PrivateKey.

(* ================================================================== *)
(** ** Which rows count, and what of a row is read *)
(* ================================================================== *)

Section Fields.
Import JS Server Spec Runs.

Lemma nonBlank_falsy cell : truthy cell = false -> nonBlank cell = false.
Proof. intros H. unfold nonBlank, or. now rewrite H. Qed.

Lemma truthy_at_in row i : truthy (at_ row i) = true -> In (at_ row i) row.
Proof.
  unfold at_. destruct (i <? 0)%Z; [discriminate|].
  destruct (nth_in_or_default (Z.to_nat i) row VUndefined) as [Hin | ->];
    [auto|discriminate].
Qed.

(** A non-blank field is a non-blank cell of the row. *)
Lemma nonBlank_field_in_row headers row name :
  nonBlank (getValue headers row name) = true -> existsb nonBlank row = true.
Proof.
  unfold getValue. destruct (indexOf headers name =? -1)%Z; [discriminate|].
  unfold or at 1. destruct (truthy (at_ row (indexOf headers name))) eqn:T.
  - intros H. apply existsb_exists. exists (at_ row (indexOf headers name)).
    split; [now apply truthy_at_in|assumption].
  - discriminate.
Qed.

Lemma qualifies_fields headers row :
  qualifies headers row
  = nonBlank (getValue headers row "email")
    || nonBlank (getValue headers row "timestamp").
Proof.
  unfold qualifies.
  destruct (nonBlank (getValue headers row "email")) eqn:E.
  - now rewrite (nonBlank_field_in_row _ _ _ E).
  - destruct (nonBlank (getValue headers row "timestamp")) eqn:T.
    + now rewrite (nonBlank_field_in_row _ _ _ T).
    + now rewrite andb_false_r.
Qed.

(** X2: the blank-row guard of the loop decides nothing on its own: a
    data row is counted exactly when its [email] or its [timestamp] field is
    non-blank, and is skipped without a trace otherwise. *)
Theorem row_counted_iff_email_or_timestamp headers a row :
  (nonBlank (getValue headers row "email")
   || nonBlank (getValue headers row "timestamp") = true ->
   acc_total (loopBody headers a row) = acc_total a + 1)
  /\ (nonBlank (getValue headers row "email")
      || nonBlank (getValue headers row "timestamp") = false ->
      loopBody headers a row = a).
Proof.
  rewrite loopBody_spec, qualifies_fields.
  split; intros ->; reflexivity.
Qed.

Lemma row_counted_iff_email_or_timestamp_witness :
  acc_total (loopBody ["email"; "timestamp"] acc0 [VStr " "; VStr "t1"; VStr ""]) = 1
  /\ loopBody ["note"; "email"] acc0 [VStr "call back"; VStr "  "] = acc0.
Proof.
  split.
  - apply (proj1 (row_counted_iff_email_or_timestamp
                    ["email"; "timestamp"] acc0 [VStr " "; VStr "t1"; VStr ""])).
    reflexivity.
  - apply (proj2 (row_counted_iff_email_or_timestamp
                    ["note"; "email"] acc0 [VStr "call back"; VStr "  "])).
    reflexivity.
Defined.

Lemma loopBody_sameFields headers headers' a row row' :
  sameFields headers headers' row row' ->
  loopBody headers a row = loopBody headers' a row'.
Proof.
  intros H. rewrite !loopBody_spec, !qualifies_fields. unfold counted.
  rewrite (H "email"), (H "timestamp"), (H "acepta_marketing"), (H "ip_country");
    unfold fieldNames; simpl; auto 6.
Qed.

Lemma runLoop_sameFields headers headers' rows rows' :
  Forall2 (sameFields headers headers') rows rows' ->
  runLoop headers rows = runLoop headers' rows'.
Proof.
  intros H. unfold runLoop. generalize acc0.
  induction H as [|row row' rows rows' Hrow _ IH]; intros a; simpl; [reflexivity|].
  rewrite (loopBody_sameFields _ _ a _ _ Hrow). apply IH.
Qed.

(** X3: the summary depends on the four fields of the data rows only:
    two ranges whose data rows read the same in [email], [timestamp],
    [acepta_marketing] and [ip_country], each under its own header row, have
    the same summary, whatever other columns they hold and in whatever
    order the columns come. *)
Theorem summary_reads_four_fields_only headerRow headerRow' rows rows' date :
  Forall2 (sameFields (map normalizeHeader headerRow) (map normalizeHeader headerRow'))
          rows rows' ->
  summaryOfRows (headerRow :: rows) date = summaryOfRows (headerRow' :: rows') date.
Proof.
  intros H. unfold summaryOfRows, summarize.
  cbn [List.length Z.of_nat Z.eqb hd tl].
  now rewrite (runLoop_sameFields _ _ _ _ H).
Qed.

Lemma summary_reads_four_fields_only_witness :
  summaryOfRows
    [ [VStr "ip_country"; VStr "notes"; VStr "Email"; VStr "acepta_marketing"];
      [VStr "MX"; VStr "vip"; VStr "a@x.com"; VStr "true"];
      [VStr "MX"; VNull; VStr "b@x.com"];
      [VStr ""; VStr "left blank"];
      [VUndefined; VNum 0; VStr "c@x.com"; VNum 1] ] 1250
  = summaryOfRows
      [ Scenario.header;
        Scenario.record "a@x.com" "" "true" "MX";
        Scenario.record "b@x.com" "" "" "MX";
        Scenario.record "" "" "" "";
        [VStr "c@x.com"; VStr ""; VNum 1] ] 1250.
Proof.
  apply summary_reads_four_fields_only.
  repeat constructor;
    intros name [<-|[<-|[<-|[<-|[]]]]]; reflexivity.
Defined.

(** X4: a range in which no data row has a non-blank [email] or
    [timestamp] (no data row at all, only blank rows, or rows filled in
    other columns only) has the zero summary of the empty range. *)
Theorem summary_without_signups_is_empty headerRow rows date :
  Forall (fun row =>
            nonBlank (getValue (map normalizeHeader headerRow) row "email") = false
            /\ nonBlank (getValue (map normalizeHeader headerRow) row "timestamp") = false)
         rows ->
  summaryOfRows (headerRow :: rows) date = summaryOfRows [] date.
Proof.
  intros H. unfold summaryOfRows, summarize.
  cbn [List.length Z.of_nat Z.eqb hd tl].
  rewrite <- runLoop_filter.
  replace (filter (qualifies (map normalizeHeader headerRow)) rows) with (@nil Row);
    [reflexivity|].
  induction H as [|row rows [He Ht] _ IH]; simpl; [reflexivity|].
  now rewrite qualifies_fields, He, Ht.
Qed.

Lemma summary_without_signups_is_empty_witness :
  summaryOfRows
    [ Scenario.header; []; Scenario.record "" " " "yes" "MX"; [VNull; VNum 0] ] 1250
  = emptySummary 1250.
Proof.
  apply (summary_without_signups_is_empty
           Scenario.header
           [ []; Scenario.record "" " " "yes" "MX"; [VNull; VNum 0] ] 1250).
  repeat constructor.
Defined.

End Fields.

(* ================================================================== *)
(** ** Header resolution and text normalization *)
(* ================================================================== *)

Section Headers.
Import JS Server Spec Runs.

Lemma indexOfFrom_first pre x post i :
  ~ In x pre -> indexOfFrom (pre ++ x :: post) x i = i + Z.of_nat (List.length pre).
Proof.
  revert i. induction pre as [|y pre IH]; intros i Hnot; simpl.
  - rewrite String.eqb_refl. lia.
  - destruct (String.eqb_spec y x) as [->|_].
    + exfalso. apply Hnot. now left.
    + rewrite IH; [lia|]. intros H. apply Hnot. now right.
Qed.

Lemma at_of_nat row n : at_ row (Z.of_nat n) = nth n row VUndefined.
Proof.
  unfold at_. destruct (Z.ltb_spec (Z.of_nat n) 0); [lia|]. now rewrite Nat2Z.id.
Qed.

(** X5: a field is read from the leftmost column whose header cell
    normalizes to the field's name; columns further right with the same
    header are never read, and a cell that is missing or falsy there reads
    as the empty string. *)
Theorem field_read_from_leftmost_matching_column pre cell post row name :
  normalizeHeader cell = name ->
  (forall c, In c pre -> normalizeHeader c <> name) ->
  getValue (map normalizeHeader (pre ++ cell :: post)) row name
  = or (nth (List.length pre) row VUndefined) (VStr "").
Proof.
  intros Hcell Hpre. unfold getValue, indexOf.
  rewrite map_app; cbn [map]. rewrite Hcell, indexOfFrom_first.
  - rewrite length_map. cbn [Z.add].
    destruct (Z.eqb_spec (Z.of_nat (List.length pre)) (-1)); [lia|].
    now rewrite at_of_nat.
  - intros Hin. apply in_map_iff in Hin as (c & Hc & Hin). now apply (Hpre c).
Qed.

Lemma field_read_from_leftmost_matching_column_witness :
  getValue (map normalizeHeader [VStr "id"; VStr " EMAIL"; VStr "email"])
           [VNum 7; VStr "first@x.com"; VStr "second@x.com"] "email"
  = VStr "first@x.com".
Proof.
  apply (field_read_from_leftmost_matching_column
           [VStr "id"] (VStr " EMAIL") [VStr "email"]
           [VNum 7; VStr "first@x.com"; VStr "second@x.com"] "email").
  - reflexivity.
  - intros c [<-|[]]. discriminate.
Defined.

Lemma isWhiteSpace_lowerChar c : isWhiteSpace (lowerChar c) = isWhiteSpace c.
Proof. destruct c as [[] [] [] [] [] [] [] []]; vm_compute; reflexivity. Qed.

Lemma textOf_string x : textOf (VStr x) = x.
Proof. now destruct x. Qed.

(** Trimming then lower-casing forgets letter case and padding. *)
Lemma toLowerCase_trim_insensitive l s s' r :
  allWhite l = true -> allWhite r = true -> toLowerCase s' = toLowerCase s ->
  toLowerCase (trim (l ++ s' ++ r)) = toLowerCase (trim s).
Proof.
  intros Hl Hr Hcase. rewrite trim_padded by assumption. unfold toLowerCase in *.
  rewrite <- !(trim_mapChars lowerChar isWhiteSpace_lowerChar). now rewrite Hcase.
Qed.

(** X6: on ASCII text, header cells are matched without regard to the
    case of the letters A to Z and to surrounding tabs, line feeds,
    vertical tabs, form feeds, carriage returns and spaces: two header
    texts equal up to these have the same normalized name, hence name the
    same column. *)
Theorem header_match_ignores_case_and_padding l s s' r :
  isAscii s = true -> isAscii s' = true ->
  allWhite l = true -> allWhite r = true -> toLowerCase s' = toLowerCase s ->
  normalizeHeader (VStr (l ++ s' ++ r)) = normalizeHeader (VStr s)
  /\ forall headers row,
       getValue (normalizeHeader (VStr (l ++ s' ++ r)) :: headers) row (normalizeHeader (VStr s))
       = or (nth 0 row VUndefined) (VStr "").
Proof.
  intros _ _ Hl Hr Hcase.
  assert (E : normalizeHeader (VStr (l ++ s' ++ r)) = normalizeHeader (VStr s)).
  { unfold normalizeHeader. fold (textOf (VStr (l ++ s' ++ r))) (textOf (VStr s)).
    rewrite !textOf_string. now apply toLowerCase_trim_insensitive. }
  split; [exact E|].
  intros headers row. rewrite E. unfold getValue, indexOf. cbn [indexOfFrom].
  rewrite String.eqb_refl. cbn [Z.eqb].
  exact (f_equal (fun v => or v (VStr "")) (at_of_nat row 0)).
Qed.

Lemma header_match_ignores_case_and_padding_witness :
  normalizeHeader (VStr "  IP_Country ") = normalizeHeader (VStr "ip_country").
Proof.
  apply (proj1 (header_match_ignores_case_and_padding
                  "  " "ip_country" "IP_Country" " "
                  eq_refl eq_refl eq_refl eq_refl eq_refl)).
Defined.

(** X7: on ASCII text, consent is read without regard to the case of the
    letters A to Z and to surrounding tabs, line feeds, vertical tabs, form
    feeds, carriage returns and spaces: two consent texts equal up to these
    are both truthy or both not. *)
Theorem consent_ignores_case_and_padding l s s' r :
  isAscii s = true -> isAscii s' = true ->
  allWhite l = true -> allWhite r = true -> toLowerCase s' = toLowerCase s ->
  isTruthy (VStr (l ++ s' ++ r)) = isTruthy (VStr s).
Proof.
  intros _ _ Hl Hr Hcase. unfold isTruthy.
  fold (textOf (VStr (l ++ s' ++ r))) (textOf (VStr s)).
  rewrite !textOf_string. now rewrite (toLowerCase_trim_insensitive l s s' r).
Qed.

Lemma consent_ignores_case_and_padding_witness :
  isTruthy (VStr " YeS  ") = isTruthy (VStr "yes").
Proof.
  apply (consent_ignores_case_and_padding " " "yes" "YeS" "  "
           eq_refl eq_refl eq_refl eq_refl eq_refl).
Defined.

End Headers.

(* ================================================================== *)
(** ** The counters of a summary *)
(* ================================================================== *)

Section Counters.
Import JS Server Spec Runs.

(** The named or unknown bucket of a counted row. *)
Lemma runLoop_unknownCount headers rows :
  acc_unknownCount (runLoop headers rows)
  = Z.of_nat (List.length (filter
      (fun r => qualifies headers r
                && match bucketOf (getValue headers r "ip_country") with
                   | None => true
                   | Some _ => false
                   end)
      rows)).
Proof.
  induction rows as [|row rows IH] using rev_ind; [reflexivity|].
  rewrite runLoop_snoc, loopBody_spec, filter_app, length_app. simpl.
  destruct (qualifies headers row); simpl; [|lia].
  destruct (bucketOf _); simpl; lia.
Qed.

Lemma filter_and_length_le {A} (f g : A -> bool) (l : list A) :
  (List.length (filter (fun x => f x && g x) l) <= List.length (filter f l))%nat.
Proof.
  induction l as [|x l IH]; simpl; [lia|].
  destruct (f x), (g x); simpl; lia.
Qed.

Lemma bucketOf_None_eqb v :
  match bucketOf v with None => true | Some _ => false end
  = ((countryOf v =? "") || (countryOf v =? "UNKNOWN"))%string.
Proof. unfold bucketOf. now destruct (_ || _). Qed.

(** X8: [marketingYes] is the number of counted rows whose consent is
    truthy, and [unknownCount] the number of counted rows whose normalized
    country code is empty or "UNKNOWN". *)
Theorem marketingYes_and_unknownCount_count_rows headerRow rows date :
  let headers := map normalizeHeader headerRow in
  let summary := summaryOfRows (headerRow :: rows) date in
  marketingYes summary
  = Z.of_nat (List.length (filter
      (fun r => qualifies headers r && isTruthy (getValue headers r "acepta_marketing"))
      rows))
  /\ unknownCount summary
     = Z.of_nat (List.length (filter
         (fun r => qualifies headers r
                   && ((countryOf (getValue headers r "ip_country") =? "")
                       || (countryOf (getValue headers r "ip_country") =? "UNKNOWN"))%string)
         rows)).
Proof.
  intros headers summary. subst summary. unfold summaryOfRows, summarize.
  cbn [List.length Z.of_nat Z.eqb hd tl marketingYes unknownCount]. fold headers.
  split; [apply runLoop_marketingYes|].
  rewrite runLoop_unknownCount. do 2 f_equal.
  apply filter_ext. intros r. now rewrite bucketOf_None_eqb.
Qed.

Lemma sumCounts_ge_length l :
  Forall (fun e => 1 <= count e) l -> Z.of_nat (List.length l) <= sumCounts l.
Proof. induction 1; simpl; lia. Qed.

Lemma summarize_bounds rows date :
  let summary := summarize rows date in
  0 <= marketingYes summary <= total summary
  /\ 0 <= unknownCount summary <= total summary
  /\ Forall (fun e => 1 <= count e) (countries summary)
  /\ Z.of_nat (List.length (countries summary)) <= total summary - unknownCount summary.
Proof.
  intros summary.
  set (headers := map normalizeHeader (hd [] rows)).
  assert (Hm : 0 <= marketingYes summary <= total summary).
  { subst summary. unfold summarize. cbn [marketingYes total]. fold headers.
    rewrite runLoop_marketingYes, runLoop_total.
    pose proof (filter_and_length_le (qualifies headers)
                  (fun r => isTruthy (getValue headers r "acepta_marketing")) (tl rows))
      as Hle.
    cbv beta in Hle. lia. }
  assert (Hu : 0 <= unknownCount summary <= total summary).
  { subst summary. unfold summarize. cbn [unknownCount total]. fold headers.
    rewrite runLoop_unknownCount, runLoop_total.
    pose proof (filter_and_length_le (qualifies headers)
                  (fun r => match bucketOf (getValue headers r "ip_country") with
                            | None => true | Some _ => false end) (tl rows)) as Hle.
    cbv beta in Hle. lia. }
  destruct (summarize_countries rows date) as (_ & _ & Hmem & Hcount & _).
  fold summary headers in Hmem, Hcount.
  assert (Hc : Forall (fun e => 1 <= count e) (countries summary)).
  { apply Forall_forall. intros e He. rewrite (Hcount e He).
    match goal with
    | |- 1 <= ?n =>
        assert (Hnz : n <> 0) by (apply rowsIn_nonzero, Hmem; now apply in_map);
        assert (Hnn : 0 <= n) by apply rowsIn_nonneg
    end.
    lia. }
  split; [exact Hm|]. split; [exact Hu|]. split; [exact Hc|].
  pose proof (sumCounts_ge_length _ Hc) as Hlen.
  pose proof (summaryOfRows_balance rows date) as Hbal.
  rewrite summaryOfRows_summarize in Hbal. fold summary in Hbal. lia.
Qed.

(** X9: in every summary the server returns, [marketingYes] and
    [unknownCount] lie between 0 and [total], every listed country has a
    count of at least 1, and there are at most [total - unknownCount]
    countries. *)
Theorem served_counters_within_total s w summary :
  Reachable s ->
  fst (buildSummary w s) = Ok summary ->
  0 <= marketingYes summary <= total summary
  /\ 0 <= unknownCount summary <= total summary
  /\ Forall (fun e => 1 <= count e) (countries summary)
  /\ Z.of_nat (List.length (countries summary)) <= total summary - unknownCount summary.
Proof.
  intros Hs Hr.
  destruct (served_summary_produced w s summary Hs Hr) as (rows & date & ->).
  rewrite summaryOfRows_summarize. apply summarize_bounds.
Qed.

Lemma served_counters_within_total_witness :
  let summary := summaryOfRows Scenario.ragged 1250 in
  0 <= marketingYes summary <= total summary
  /\ 0 <= unknownCount summary <= total summary
  /\ Forall (fun e => 1 <= count e) (countries summary)
  /\ Z.of_nat (List.length (countries summary)) <= total summary - unknownCount summary.
Proof.
  apply (served_counters_within_total initialState (Scenario.world 1000 Scenario.ragged)).
  - exact reach_start.
  - vm_compute. reflexivity.
Defined.

End Counters.

(* ================================================================== *)
(** ** The order of countries with equal counts *)
(* ================================================================== *)

Section Ties.
Import JS Server Spec Runs.

Lemma seenOrder_snoc headers rows row :
  seenOrder headers (rows ++ [row])
  = noteBucket (seenOrder headers rows) (rowBucket headers row).
Proof. unfold seenOrder. now rewrite map_app, fold_left_app. Qed.

Lemma has_get o k : has (map fst o) k = match Obj.get o k with Some _ => true | None => false end.
Proof.
  induction o as [|[k0 v0] o IH]; simpl; [reflexivity|].
  destruct (k0 =? k)%string; [reflexivity|exact IH].
Qed.

(** The counter object lists the codes in order of first appearance. *)
Lemma runLoop_keys headers rows :
  map fst (acc_countryCounts (runLoop headers rows)) = seenOrder headers rows.
Proof.
  induction rows as [|row rows IH] using rev_ind; [reflexivity|].
  rewrite runLoop_snoc, loopBody_spec, seenOrder_snoc. unfold rowBucket.
  destruct (qualifies headers row); [|exact IH].
  unfold counted; cbn [acc_countryCounts].
  destruct (bucketOf _) as [c|]; [|exact IH].
  cbn [noteBucket]. rewrite keys_set, <- IH, has_get.
  now destruct (Obj.get _ c).
Qed.

Lemma insertSorted_ties n x l :
  filter (fun e => (count e =? n)%Z) (insertSorted x l)
  = filter (fun e => (count e =? n)%Z) (x :: l).
Proof.
  induction l as [|y l IH]; [reflexivity|].
  cbn [insertSorted]. unfold compareFn.
  destruct (Z.leb_spec (count y - count x) 0) as [_|Hgt]; [reflexivity|].
  cbn [filter] in *. rewrite IH.
  destruct (Z.eqb_spec (count x) n), (Z.eqb_spec (count y) n); try reflexivity.
  lia.
Qed.

(** The sort keeps entries of equal count in their order. *)
Lemma sort_ties n l :
  filter (fun e => (count e =? n)%Z) (sort l) = filter (fun e => (count e =? n)%Z) l.
Proof.
  induction l as [|x l IH]; [reflexivity|].
  cbn [sort]. rewrite insertSorted_ties. cbn [filter]. now rewrite IH.
Qed.

Lemma entries_named o :
  (forall k, In k (map fst o) -> Obj.arrayIndex k = None) -> Obj.entries o = o.
Proof.
  intros H.
  assert (Hi : Obj.indexedKeys o = [] /\ Obj.namedKeys o = o).
  { induction o as [|[k v] o IH]; [now split|].
    cbn [Obj.indexedKeys Obj.namedKeys]. rewrite (H k) by now left.
    destruct IH as [Hidx Hnamed]; [intros k' Hk'; apply H; now right|].
    split; [exact Hidx|now rewrite Hnamed]. }
  unfold Obj.entries. destruct Hi as [-> ->]. reflexivity.
Qed.

Lemma codes_of_count n (f : string -> Z) o :
  (forall k v, In (k, v) o -> v = f k) ->
  map code (filter (fun e => (count e =? n)%Z) (map entryOf o))
  = filter (fun c => (f c =? n)%Z) (map fst o).
Proof.
  induction o as [|[k v] o IH]; intros H; [reflexivity|].
  cbn [map filter entryOf fst snd count].
  rewrite <- (H k v) by now left.
  rewrite <- IH by (intros k' v' Hin; apply H; now right).
  now destruct (v =? n)%Z.
Qed.

(** X10: when no country code is an array index (a canonical decimal
    number), the countries that share a count are listed in the order in
    which their codes first appear among the counted rows. *)
Theorem tied_countries_in_order_of_first_appearance headerRow rows date n :
  let headers := map normalizeHeader headerRow in
  (forall c, In c (seenOrder headers rows) -> Obj.arrayIndex c = None) ->
  map code (filter (fun e => (count e =? n)%Z)
                   (countries (summaryOfRows (headerRow :: rows) date)))
  = filter (fun c => (rowsIn headers rows c =? n)%Z) (seenOrder headers rows).
Proof.
  intros headers Hnamed. unfold summaryOfRows, summarize.
  cbn [List.length Z.of_nat Z.eqb hd tl countries]. fold headers.
  unfold countriesOf. rewrite sort_ties, entries_named.
  - rewrite <- runLoop_keys. apply codes_of_count.
    intros k v Hin.
    apply (get_In _ _ _ (runLoop_NoDup headers rows)) in Hin.
    rewrite runLoop_get in Hin.
    destruct (rowsIn headers rows k =? 0)%Z; congruence.
  - now rewrite runLoop_keys.
Qed.

Lemma tied_countries_in_order_of_first_appearance_witness :
  map code
    (filter (fun e => (count e =? 1)%Z)
       (countries
          (summaryOfRows
             [ [VStr "email"; VStr "ip_country"];
               [VStr "a"; VStr "pe"]; [VStr "b"; VStr "MX"]; [VStr "c"; VStr "ar"];
               [VStr "d"; VStr "mx"]; [VStr "e"; VStr "CL"] ] 0)))
  = ["PE"; "AR"; "CL"].
Proof.
  apply (tied_countries_in_order_of_first_appearance
           [VStr "email"; VStr "ip_country"]
           [ [VStr "a"; VStr "pe"]; [VStr "b"; VStr "MX"]; [VStr "c"; VStr "ar"];
             [VStr "d"; VStr "mx"]; [VStr "e"; VStr "CL"] ] 0 1).
  intros c Hin. vm_compute in Hin.
  repeat (destruct Hin as [<-|Hin]; [reflexivity|]). destruct Hin.
Defined.

End Ties.

(* ================================================================== *)
(** ** The outside calls of a fetch *)
(* ================================================================== *)

Section Fetch.
Import JS Server Spec Runs.

Lemma fetchSheetRows_titled w s :
  titleTruthy (cachedSheetTitle s) = true ->
  exists title,
    cachedSheetTitle s = Some title
    /\ fetchSheetRows w s
       = match valuesGet w (title ++ "!A1:Z") with
         | Resolved values =>
             (Ok (match values with Some rows => rows | None => [] end),
              mkState (cache s) (cachedSheetTitle s)
                      (trace s ++ [ValuesGet (title ++ "!A1:Z")]))
         | Rejected e =>
             (Throw e,
              mkState (cache s) (cachedSheetTitle s)
                      (trace s ++ [ValuesGet (title ++ "!A1:Z")]))
         end.
Proof.
  intros H. destruct (cachedSheetTitle s) as [title|] eqn:T; [|discriminate].
  exists title. split; [reflexivity|].
  unfold fetchSheetRows, bind. rewrite getSheetTitle_cached by now rewrite T.
  rewrite T, H. unfold ask, emit, await, ret. cbn [cache cachedSheetTitle trace].
  rewrite T. now destruct (valuesGet w _).
Qed.

(** X11: a fetch leaves the cache slot alone and makes its outside calls
    in a fixed pattern: the metadata lookup at most once and only when no
    title is cached, then the read of cell values at most once, for the
    range [<title>!A1:Z] of the title cached by then, or [A1:Z] when there
    is none; a rejected lookup ends the fetch before any read, and the
    fetch fails exactly with the error of the rejected call. *)
Theorem fetch_calls_lookup_then_one_read w s r s1 :
  fetchSheetRows w s = (r, s1) ->
  cache s1 = cache s
  /\ exists events,
       trace s1 = (trace s ++ events)%list
       /\ ((events = [SpreadsheetsGet]
            /\ titleTruthy (cachedSheetTitle s) = false
            /\ exists e, spreadsheetsGet w = Rejected e /\ r = Throw e)
           \/ exists range,
                range = match cachedSheetTitle s1 with
                        | Some title => title ++ "!A1:Z"
                        | None => "A1:Z"
                        end
                /\ ((events = [ValuesGet range] /\ titleTruthy (cachedSheetTitle s) = true)
                    \/ (events = [SpreadsheetsGet; ValuesGet range]
                        /\ titleTruthy (cachedSheetTitle s) = false))
                /\ match r with
                   | Ok rows =>
                       exists values,
                         valuesGet w range = Resolved values
                         /\ rows = match values with Some rows' => rows' | None => [] end
                   | Throw e => valuesGet w range = Rejected e
                   end).
Proof.
  intros Hrun.
  split; [change s1 with (snd (r, s1)); rewrite <- Hrun; apply fetchSheetRows_cache|].
  destruct (titleTruthy (cachedSheetTitle s)) eqn:T.
  - destruct (fetchSheetRows_titled w s T) as (title & Ht & Hf).
    rewrite Hf in Hrun. eexists. split.
    + destruct (valuesGet w _); injection Hrun as <- <-; reflexivity.
    + right. exists (title ++ "!A1:Z").
      destruct (valuesGet w (title ++ "!A1:Z")) as [values|e] eqn:V;
        injection Hrun as <- <-; cbn [cachedSheetTitle]; rewrite Ht;
        (split; [reflexivity|]); (split; [now left|]);
        [exists values; now split | reflexivity].
  - unfold fetchSheetRows, bind in Hrun.
    rewrite getSheetTitle_lookup in Hrun by assumption.
    destruct (spreadsheetsGet w) as [reply|e] eqn:G.
    + unfold ask, emit, await, ret in Hrun.
      cbn [cache cachedSheetTitle trace] in Hrun.
      set (range := match orNull reply with
                    | Some t => if titleTruthy (orNull reply) then t ++ "!A1:Z" else "A1:Z"
                    | None => "A1:Z"
                    end) in Hrun.
      assert (Hrange : range = match orNull reply with
                               | Some title => title ++ "!A1:Z"
                               | None => "A1:Z"
                               end).
      { subst range. unfold orNull.
        destruct (titleTruthy reply) eqn:R; [|reflexivity].
        destruct reply; [now rewrite R|reflexivity]. }
      exists [SpreadsheetsGet; ValuesGet range]. split.
      * destruct (valuesGet w range); injection Hrun as <- <-;
          cbn [trace]; now rewrite <- app_assoc.
      * right. exists range.
        destruct (valuesGet w range) as [values|e] eqn:V;
          injection Hrun as <- <-; cbn [cachedSheetTitle];
          (split; [exact Hrange|]); (split; [now right|]);
          [exists values; now split | reflexivity].
    + injection Hrun as <- <-. exists [SpreadsheetsGet]. split; [reflexivity|].
      left. split; [reflexivity|]. split; [reflexivity|]. now exists e.
Qed.

Lemma fetch_calls_lookup_then_one_read_witness :
  let w := mkWorld 1000 (Rejected "denied") (fun _ => Resolved None) 1250 in
  cache (snd (fetchSheetRows w initialState)) = cache initialState
  /\ exists events,
       trace (snd (fetchSheetRows w initialState)) = (trace initialState ++ events)%list.
Proof.
  cbv zeta.
  destruct (fetch_calls_lookup_then_one_read
              (mkWorld 1000 (Rejected "denied") (fun _ => Resolved None) 1250)
              initialState _ _ eq_refl)
    as (Hcache & events & Htrace & _).
  split; [exact Hcache|]. exists events. exact Htrace.
Defined.

End Fetch.

(* ================================================================== *)
(** ** Sequences of requests *)
(* ================================================================== *)

Section Requests.
Import JS Server Spec Runs.

Lemma apiSummary_cases w s :
  apiSummary w s
  = match buildSummary w s with
    | (Ok summary, s') => (Ok (mkResponse 200 (SummaryBody summary)), s')
    | (Throw e, s') =>
        (Ok (mkResponse 500 (ErrorBody "Failed to load sheet data")),
         mkState (cache s') (cachedSheetTitle s')
                 (trace s' ++ [ConsoleError "Failed to load sheet data" e]))
    end.
Proof.
  unfold apiSummary, tryCatch, bind.
  now destruct (buildSummary w s) as [[summary|e] s'].
Qed.

Lemma serveAll_cons w ws s :
  serveAll (w :: ws) s
  = (fst (apiSummary w s) :: fst (serveAll ws (snd (apiSummary w s))),
     snd (serveAll ws (snd (apiSummary w s)))).
Proof.
  cbn [serveAll]. destruct (apiSummary w s) as [r s1]. cbn [fst snd].
  now destruct (serveAll ws s1).
Qed.

Lemma lookups_other c t c' t' tr ev :
  isSpreadsheetsGet ev = false ->
  lookups (mkState c t (tr ++ [ev])) = lookups (mkState c' t' tr).
Proof.
  intros H. unfold lookups; cbn [trace]. rewrite filter_app. cbn [filter].
  rewrite H. now rewrite app_nil_r.
Qed.

Lemma buildSummary_titled w s :
  titleTruthy (cachedSheetTitle s) = true ->
  cachedSheetTitle (snd (buildSummary w s)) = cachedSheetTitle s
  /\ lookups (snd (buildSummary w s)) = lookups s.
Proof.
  intros T. destruct (isFresh (cache s) (dateNow w)) eqn:F.
  - apply isFresh_true in F as (c & Hd & Hlt).
    rewrite (buildSummary_hit w s c Hd Hlt). now split.
  - rewrite buildSummary_miss by assumption.
    destruct (fetchSheetRows_titled w s T) as (title & Ht & Hf).
    destruct (valuesGet w (title ++ "!A1:Z")) as [values|e].
    + rewrite (refresh_ok _ _ _ _ _ Hf). cbn [snd cachedSheetTitle trace].
      split; [reflexivity|].
      rewrite (lookups_other _ _ (cache s) (cachedSheetTitle s)) by reflexivity.
      now destruct s.
    + rewrite (refresh_throw _ _ _ _ _ Hf). cbn [snd cachedSheetTitle].
      split; [reflexivity|]. rewrite (lookups_other _ _ (cache s) (cachedSheetTitle s)) by reflexivity.
      now destruct s.
Qed.

Lemma apiSummary_titled w s :
  titleTruthy (cachedSheetTitle s) = true ->
  cachedSheetTitle (snd (apiSummary w s)) = cachedSheetTitle s
  /\ lookups (snd (apiSummary w s)) = lookups s.
Proof.
  intros T. destruct (buildSummary_titled w s T) as [Ht Hl].
  rewrite apiSummary_cases.
  destruct (buildSummary w s) as [[summary|e] s']; cbn [snd] in *; [now split|].
  cbn [cachedSheetTitle]. split; [exact Ht|].
  rewrite (lookups_other _ _ (cache s') (cachedSheetTitle s')) by reflexivity.
  now destruct s'.
Qed.

(** X12: once a title is cached it stays for the life of the process:
    however many requests follow and whatever the service replies, the
    cached title is the same and no further metadata lookup is made. *)
Theorem cached_title_never_refreshed ws s :
  titleTruthy (cachedSheetTitle s) = true ->
  cachedSheetTitle (snd (serveAll ws s)) = cachedSheetTitle s
  /\ lookups (snd (serveAll ws s)) = lookups s.
Proof.
  revert s. induction ws as [|w ws IH]; intros s T; [now split|].
  rewrite serveAll_cons. cbn [snd].
  destruct (apiSummary_titled w s T) as [Ht Hl].
  destruct (IH (snd (apiSummary w s))) as [Ht' Hl']; [now rewrite Ht|].
  split; congruence.
Qed.

Lemma cached_title_never_refreshed_witness :
  let s := snd (apiSummary (Scenario.world 1000 Scenario.rows) initialState) in
  let later := [ Scenario.untitled 70000; Scenario.failing 140000;
                 mkWorld 210000 (Resolved (Some "Renamed")) (fun _ => Resolved None) 210001 ] in
  cachedSheetTitle (snd (serveAll later s)) = Some "Signups"
  /\ lookups (snd (serveAll later s)) = 1%nat.
Proof.
  cbv zeta.
  apply (cached_title_never_refreshed
           [ Scenario.untitled 70000; Scenario.failing 140000;
             mkWorld 210000 (Resolved (Some "Renamed")) (fun _ => Resolved None) 210001 ]
           (snd (apiSummary (Scenario.world 1000 Scenario.rows) initialState))).
  reflexivity.
Defined.

Lemma fetchSheetRows_trace_grows w s :
  exists ev evs, trace (snd (fetchSheetRows w s)) = (trace s ++ ev :: evs)%list.
Proof.
  destruct (titleTruthy (cachedSheetTitle s)) eqn:T.
  - destruct (fetchSheetRows_titled w s T) as (title & _ & ->).
    exists (ValuesGet (title ++ "!A1:Z")), [].
    now destruct (valuesGet w _).
  - unfold fetchSheetRows, bind. rewrite getSheetTitle_lookup by assumption.
    exists SpreadsheetsGet.
    destruct (spreadsheetsGet w) as [reply|e]; [|now exists []].
    unfold ask, emit, await, ret. cbn [cache cachedSheetTitle trace].
    eexists [ValuesGet _].
    destruct (valuesGet w _); cbn [snd trace]; now rewrite <- app_assoc.
Qed.

Lemma refresh_trace now w s :
  trace (snd (refresh now w s)) = trace (snd (fetchSheetRows w s)).
Proof.
  destruct (fetchSheetRows w s) as [[rows|e] s1] eqn:F.
  - now rewrite (refresh_ok _ _ _ _ _ F).
  - now rewrite (refresh_throw _ _ _ _ _ F).
Qed.

(** X13: the freshness window is counted from the start of the request
    that fetched: after a request entered at time [t] has fetched and stored
    a summary, a later request is answered from the cache, with no outside
    call at all, exactly when it enters before [t + 60000]; at [t + 60000]
    and later it goes back to the service. *)
Theorem window_runs_from_start_of_fetching_request w s summary s2 w2 :
  isFresh (cache s) (dateNow w) = false ->
  buildSummary w s = (Ok summary, s2) ->
  (trace (snd (buildSummary w2 s2)) = trace s2 <-> dateNow w2 - dateNow w < 60 * 1000)
  /\ (dateNow w2 - dateNow w < 60 * 1000 -> buildSummary w2 s2 = (Ok summary, s2)).
Proof.
  intros Hstale Hrun. rewrite buildSummary_miss in Hrun by assumption.
  destruct (fetchSheetRows w s) as [[rows|e] s1] eqn:F;
    [rewrite (refresh_ok _ _ _ _ _ F) in Hrun
    |rewrite (refresh_throw _ _ _ _ _ F) in Hrun; discriminate].
  injection Hrun as <- <-.
  set (s2 := mkState _ _ _).
  assert (Hhit : dateNow w2 - dateNow w < 60 * 1000 ->
                 buildSummary w2 s2 = (Ok (summaryOfRows rows (newDate w)), s2)).
  { intros Hlt. now apply buildSummary_hit. }
  split; [|exact Hhit]. split.
  - intros Htrace.
    destruct (Z.lt_ge_cases (dateNow w2 - dateNow w) (60 * 1000)) as [|Hge]; [assumption|].
    exfalso. rewrite buildSummary_miss, refresh_trace in Htrace.
    + destruct (fetchSheetRows_trace_grows w2 s2) as (ev & evs & Hg).
      rewrite Hg in Htrace. rewrite <- (app_nil_r (trace s2)) in Htrace at 2.
      apply app_inv_head in Htrace. discriminate.
    + unfold isFresh. cbn [s2 cache data fetchedAt]. apply Z.ltb_ge.
      unfold CACHE_TTL_MS. lia.
  - intros Hlt. now rewrite (Hhit Hlt).
Qed.

Lemma window_runs_from_start_of_fetching_request_witness :
  let first := buildSummary (Scenario.world 1000 Scenario.rows) initialState in
  buildSummary (Scenario.failing 60999) (snd first) = first.
Proof.
  cbv zeta.
  destruct (window_runs_from_start_of_fetching_request
              (Scenario.world 1000 Scenario.rows) initialState _ _
              (Scenario.failing 60999) eq_refl eq_refl) as [_ Hserved].
  apply Hserved. reflexivity.
Defined.

Lemma serveAll_fresh ws s cached :
  data (cache s) = Some cached ->
  Forall (fun w => dateNow w - fetchedAt (cache s) < 60 * 1000) ws ->
  serveAll ws s = (map (fun _ => Ok (mkResponse 200 (SummaryBody cached))) ws, s).
Proof.
  intros Hd Hall. induction Hall as [|w ws Hw _ IH]; [reflexivity|].
  rewrite serveAll_cons, apiSummary_cases, (buildSummary_hit w s cached Hd Hw).
  cbn [fst snd map]. now rewrite IH.
Qed.

(** X14: while the cache entry is fresh, any number of requests served
    one after the other leave the state as it is, so none of them reaches
    the service, and for each of them [buildSummary] returns the cached
    summary and the handler passes that summary to [json]. *)
Theorem burst_within_window_served_from_cache ws s cached :
  data (cache s) = Some cached ->
  Forall (fun w => dateNow w - fetchedAt (cache s) < 60 * 1000) ws ->
  snd (serveAll ws s) = s
  /\ Forall (fun w => buildSummary w s = (Ok cached, s)) ws
  /\ map sentBody (fst (serveAll ws s)) = map (fun _ => Some (SummaryBody cached)) ws.
Proof.
  intros Hd Hall. rewrite (serveAll_fresh ws s cached Hd Hall). cbn [fst snd].
  split; [reflexivity|]. split.
  - apply Forall_forall. intros w Hw. rewrite Forall_forall in Hall.
    now apply buildSummary_hit, Hall.
  - rewrite map_map. reflexivity.
Qed.

Lemma burst_within_window_served_from_cache_witness :
  let s := snd (apiSummary (Scenario.world 1000 Scenario.rows) initialState) in
  let burst := [Scenario.failing 2000; Scenario.untitled 30000; Scenario.failing 60999] in
  snd (serveAll burst s) = s.
Proof.
  cbv zeta.
  apply (burst_within_window_served_from_cache
           [Scenario.failing 2000; Scenario.untitled 30000; Scenario.failing 60999]
           (snd (apiSummary (Scenario.world 1000 Scenario.rows) initialState))
           (summaryOfRows Scenario.rows 1250) eq_refl).
  repeat constructor.
Defined.

End Requests.

(* ================================================================== *)
(** ** The handler's answers and the cache behind them *)
(* ================================================================== *)

Section Handler.
Import JS Server Spec Runs.


Lemma apiSummary_served_is_cached w s summary s' :
  apiSummary w s = (Ok (mkResponse 200 (SummaryBody summary)), s') ->
  data (cache s') = Some summary.
Proof.
  rewrite apiSummary_cases.
  destruct (buildSummary w s) as [[r|e] s1] eqn:B; [|discriminate].
  intros [= <- <-].
  destruct (isFresh (cache s) (dateNow w)) eqn:F.
  - apply isFresh_true in F as (c & Hd & Hlt).
    rewrite (buildSummary_hit w s c Hd Hlt) in B. now injection B as <- <-.
  - rewrite buildSummary_miss in B by assumption.
    destruct (fetchSheetRows w s) as [[rows|e1] s0] eqn:Fe.
    + rewrite (refresh_ok _ _ _ _ _ Fe) in B. now injection B as <- <-.
    + rewrite (refresh_throw _ _ _ _ _ Fe) in B. discriminate.
Qed.

Lemma apiSummary_keeps_entry w s :
  data (cache s) <> None -> data (cache (snd (apiSummary w s))) <> None.
Proof.
  intros H. rewrite apiSummary_cache.
  destruct (buildSummary_cache w s) as [-> | (rows & ->)]; [assumption|discriminate].
Qed.

(** X16: after a 200 the cache slot holds the very summary that was
    sent, and a cache entry, once made, is never removed: it is still there
    after any number of further requests, failed ones included. *)
Theorem cache_holds_last_served_summary :
  (forall w s summary s',
     apiSummary w s = (Ok (mkResponse 200 (SummaryBody summary)), s') ->
     data (cache s') = Some summary)
  /\ (forall ws s,
        data (cache s) <> None -> data (cache (snd (serveAll ws s))) <> None).
Proof.
  split; [exact apiSummary_served_is_cached|].
  induction ws as [|w ws IH]; intros s H; [exact H|].
  rewrite serveAll_cons. cbn [snd]. apply IH. now apply apiSummary_keeps_entry.
Qed.

Lemma cache_holds_last_served_summary_witness :
  let s := snd (apiSummary (Scenario.world 1000 Scenario.rows) initialState) in
  data (cache (snd (serveAll [Scenario.failing 70000; Scenario.failing 140000] s))) <> None.
Proof.
  cbv zeta.
  apply (proj2 cache_holds_last_served_summary
           [Scenario.failing 70000; Scenario.failing 140000]
           (snd (apiSummary (Scenario.world 1000 Scenario.rows) initialState))).
  discriminate.
Defined.

End Handler.

(* ================================================================== *)
(** ** The dashboard's country list *)
(* ================================================================== *)

Section Dashboard.
Import JS Server Spec Runs Client.

Lemma fold_max_ge l m :
  m <= fold_left (fun maxValue entry => Z.max maxValue (count entry)) l m
  /\ Forall (fun e => count e <= fold_left (fun maxValue entry => Z.max maxValue (count entry)) l m) l.
Proof.
  revert m. induction l as [|x l IH]; intros m; cbn [fold_left]; [split; [lia|constructor]|].
  destruct (IH (Z.max m (count x))) as [Hm Hall].
  split; [lia|]. constructor; [lia|exact Hall].
Qed.

Lemma summarize_no_unknown_code rows date :
  ~ In "UNKNOWN" (map code (countries (summarize rows date))).
Proof.
  destruct (summarize_countries rows date) as (_ & _ & Hmem & _).
  intros Hin. apply Hmem in Hin as (row & _ & Hb).
  apply rowBucket_Some in Hb as (_ & _ & _ & Hne). now apply Hne.
Qed.

Lemma In_firstn {A} n (l : list A) x : In x (firstn n l) -> In x l.
Proof.
  revert n. induction l as [|y l IH]; intros n; destruct n; cbn [firstn In]; try tauto.
  intros [->|H]; [now left|right; now apply (IH n)].
Qed.

Lemma NoDup_firstn {A} n (l : list A) : NoDup l -> NoDup (firstn n l).
Proof.
  revert n. induction l as [|x l IH]; intros n Hnd; destruct n; cbn [firstn];
    try constructor.
  - inversion Hnd; subst. intros Hin. apply In_firstn in Hin. contradiction.
  - inversion Hnd; subst. now apply IH.
Qed.

(** X17: for every summary the server returns, the dashboard's country
    list has at most seven rows with pairwise different codes (the row it
    adds for the unknown count never repeats a country of the summary), the
    scale of the bars is at least 1 and no row exceeds it. *)
Theorem dashboard_country_rows s w summary :
  Reachable s ->
  fst (buildSummary w s) = Ok summary ->
  (List.length (topCountries (Some summary)) <= 7)%nat
  /\ NoDup (map code (topCountries (Some summary)))
  /\ 1 <= maxCountryCount (Some summary)
  /\ Forall (fun e => count e <= maxCountryCount (Some summary))
            (topCountries (Some summary)).
Proof.
  intros Hs Hr.
  destruct (served_summary_produced w s summary Hs Hr) as (rows & date & ->).
  rewrite summaryOfRows_summarize.
  set (summary := summarize rows date).
  destruct (fold_max_ge (topCountries (Some summary)) 1) as [Hone Hall].
  split; [|split; [|split; [exact Hone|exact Hall]]].
  - unfold topCountries.
    pose proof (firstn_le_length 6 (countries summary)) as Hlen.
    destruct (unknownCountOf (Some summary) >? 0)%Z;
      [rewrite length_app; cbn [List.length]; lia|lia].
  - assert (Hnd : NoDup (map code (firstn 6 (countries summary)))).
    { rewrite <- firstn_map. apply NoDup_firstn.
      now destruct (summarize_countries rows date) as (_ & Hnd & _). }
    unfold topCountries.
    destruct (unknownCountOf (Some summary) >? 0)%Z; [|exact Hnd].
    rewrite map_app. cbn [map code].
    apply (Permutation_NoDup (l := "UNKNOWN" :: map code (firstn 6 (countries summary)))).
    + apply Permutation_cons_append.
    + constructor; [|exact Hnd].
      rewrite <- firstn_map. intros Hin. apply In_firstn in Hin.
      now apply (summarize_no_unknown_code rows date).
Qed.

Lemma dashboard_country_rows_witness :
  let summary := summaryOfRows Scenario.ragged 1250 in
  (List.length (topCountries (Some summary)) <= 7)%nat
  /\ NoDup (map code (topCountries (Some summary)))
  /\ 1 <= maxCountryCount (Some summary)
  /\ Forall (fun e => count e <= maxCountryCount (Some summary))
            (topCountries (Some summary)).
Proof.
  apply (dashboard_country_rows initialState (Scenario.world 1000 Scenario.ragged)).
  - exact reach_start.
  - vm_compute. reflexivity.
Defined.

End Dashboard.

(* ================================================================== *)
(** ** The scale of the dashboard's bars *)
(* ================================================================== *)

Section BarScale.
Import JS Server Spec Runs Client.

Lemma fold_max_bounded l m :
  Forall (fun e => count e <= m) l ->
  fold_left (fun maxValue entry => Z.max maxValue (count entry)) l m = m.
Proof.
  induction 1 as [|x l Hx _ IH]; cbn [fold_left]; [reflexivity|].
  now rewrite Z.max_l by exact Hx.
Qed.

Lemma sorted_head_dominates x l :
  countDescending (x :: l) -> Forall (fun e => count e <= count x) l.
Proof.
  intros Hs. apply Sorted_extends in Hs.
  - apply Forall_forall. intros e He.
    rewrite Forall_forall in Hs. specialize (Hs e He). lia.
  - intros a b c Hab Hbc. lia.
Qed.

Lemma Forall_firstn {A} (P : A -> Prop) n l : Forall P l -> Forall P (firstn n l).
Proof.
  rewrite !Forall_forall. intros H x Hin. apply H. now apply (In_firstn n).
Qed.

Lemma fold_max_top rows date :
  fold_left (fun maxValue entry => Z.max maxValue (count entry))
            (firstn 6 (countries (summarize rows date))) 1
  = Z.max 1 (match topCountry (summarize rows date) with
             | Some e => count e
             | None => 0
             end).
Proof.
  destruct (summarize_countries rows date) as (Hsorted & _ & _ & _ & ->).
  destruct (countries (summarize rows date)) as [|x l]; [reflexivity|].
  change (firstn 6 (x :: l)) with (x :: firstn 5 l).
  cbn [fold_left]. apply fold_max_bounded.
  apply Forall_firstn.
  apply (Forall_impl _ (P := fun e => count e <= count x));
    [intros e He; lia|now apply sorted_head_dominates].
Qed.

(** X18: for every summary the server returns, the scale of the
    dashboard's bars is the largest of 1, the count of [topCountry] and
    the unknown count: the countries beyond the sixth never set it. *)
Theorem dashboard_bar_scale s w summary :
  Reachable s ->
  fst (buildSummary w s) = Ok summary ->
  maxCountryCount (Some summary)
  = Z.max 1 (Z.max (match topCountry summary with Some e => count e | None => 0 end)
                   (unknownCount summary)).
Proof.
  intros Hs Hr.
  destruct (served_summary_produced w s summary Hs Hr) as (rows & date & ->).
  rewrite summaryOfRows_summarize.
  unfold maxCountryCount, topCountries, unknownCountOf, orZero.
  set (u := unknownCount (summarize rows date)).
  replace (if (u =? 0)%Z then 0 else u) with u by (destruct (Z.eqb_spec u 0); lia).
  destruct (Z.gtb_spec u 0) as [Hpos|Hle].
  - rewrite fold_left_app. cbn [fold_left count]. rewrite fold_max_top. lia.
  - rewrite fold_max_top. lia.
Qed.

Lemma dashboard_bar_scale_witness :
  maxCountryCount (Some (summaryOfRows Scenario.ragged 1250)) = 3.
Proof.
  apply (dashboard_bar_scale initialState (Scenario.world 1000 Scenario.ragged)).
  - exact reach_start.
  - vm_compute. reflexivity.
Defined.

End BarScale.

(* ================================================================== *)
(** ** How often the service is called *)
(* ================================================================== *)

Section CallCounts.
Import JS Server Spec Runs.

Lemma count_snoc (p : Event -> bool) tr ev :
  List.length (filter p (tr ++ [ev]))
  = (List.length (filter p tr) + (if p ev then 1 else 0))%nat.
Proof. rewrite filter_app, length_app. cbn [filter]. now destruct (p ev). Qed.

Lemma fetchSheetRows_counts w s :
  (fetches s <= fetches (snd (fetchSheetRows w s)) <= S (fetches s))%nat
  /\ (lookups s <= lookups (snd (fetchSheetRows w s)) <= S (lookups s))%nat.
Proof.
  unfold fetches, lookups.
  destruct (titleTruthy (cachedSheetTitle s)) eqn:T.
  - destruct (fetchSheetRows_titled w s T) as (title & _ & ->).
    destruct (valuesGet w _); cbn [snd trace]; rewrite !count_snoc; cbn; lia.
  - unfold fetchSheetRows, bind. rewrite getSheetTitle_lookup by assumption.
    destruct (spreadsheetsGet w) as [reply|e].
    + unfold ask, emit, await, ret. cbn [cache cachedSheetTitle trace].
      destruct (valuesGet w _); cbn [snd trace]; rewrite !count_snoc; cbn; lia.
    + cbn [snd trace]. rewrite !count_snoc; cbn; lia.
Qed.

Lemma apiSummary_counts w s :
  (fetches s <= fetches (snd (apiSummary w s)) <= S (fetches s))%nat
  /\ (lookups s <= lookups (snd (apiSummary w s)) <= S (lookups s))%nat.
Proof.
  rewrite apiSummary_cases.
  destruct (isFresh (cache s) (dateNow w)) eqn:F.
  - apply isFresh_true in F as (c & Hd & Hlt).
    rewrite (buildSummary_hit w s c Hd Hlt). cbn [snd]. lia.
  - rewrite buildSummary_miss by assumption.
    pose proof (fetchSheetRows_counts w s) as H.
    destruct (fetchSheetRows w s) as [[rows|e] s1] eqn:Fe; cbn [snd] in H.
    + rewrite (refresh_ok _ _ _ _ _ Fe). exact H.
    + rewrite (refresh_throw _ _ _ _ _ Fe). cbn [snd].
      unfold fetches, lookups in *. cbn [trace]. rewrite !count_snoc. cbn. lia.
Qed.

(** X19: each request reads the cell values at most once and looks the
    title up at most once: over any sequence of requests the numbers of
    reads and of lookups grow, by no more than the number of requests. *)
Theorem at_most_one_read_per_request ws s :
  (fetches s <= fetches (snd (serveAll ws s)) <= fetches s + List.length ws)%nat
  /\ (lookups s <= lookups (snd (serveAll ws s)) <= lookups s + List.length ws)%nat.
Proof.
  revert s. induction ws as [|w ws IH]; intros s; [cbn; lia|].
  rewrite serveAll_cons. cbn [snd List.length].
  pose proof (apiSummary_counts w s) as H1.
  pose proof (IH (snd (apiSummary w s))) as H2. lia.
Qed.

End CallCounts.
